(** * timeline-filter.js: the [TimelineFilter] class

    A shallow embedding of [src/timeline-filter.js] and the properties of
    its filtering logic.

    The class receives a dataset that came out of [JSON.parse] (or a literal
    of the same shape), so data is modelled as JSON values and every property
    read follows the JavaScript rules: reading a property of [null] or
    [undefined] throws a [TypeError], reading an absent property yields
    [undefined].  The methods mutate the fields of [this] and the page, and an
    exception raised in the middle of a method leaves the assignments made so
    far in place; methods are therefore state transformers that return a
    completion (normal or throw) together with the state reached.

    Outside the class: [document.getElementById] is taken to find the four
    elements the class asks for, and [TL.Timeline], the rendering widget, to
    be loaded, to construct without throwing and to leave the data it is
    given alone.  The two toggles take their label as a string: the buttons
    pass entries of the vocabularies, which are strings on datasets of the
    documented shape; the vocabularies themselves are computed on arbitrary
    JSON values. *)

From Stdlib Require Import String Ascii List DecimalString OrderedTypeEx.
From stdpp Require Import gmap strings list sorting.

Local Open Scope string_scope.
Local Open Scope list_scope.

(** ** JSON values *)

(** A JSON number is represented by its canonical rendering (the result of
    JavaScript's [ToString] on it).  The rendering determines the number up
    to the sign of zero, which [SameValueZero] and truthiness ignore as well,
    so nothing the class does can tell two numbers with one rendering apart.
    An object is its list of own properties in insertion order. *)
#[local] Set Warnings "-register-all,-clear-no-such-hyp".
Inductive json : Type :=
| JNull
| JBool (b : bool)
| JNum (repr : string)
| JStr (s : string)
| JArr (items : list json)
| JObj (fields : list (string * json)).

(** The result of a property read: [None] is [undefined]. *)
Definition value : Type := option json.

Section json_induction.
Variable P : json → Prop.
Hypothesis HNull : P JNull.
Hypothesis HBool : ∀ b, P (JBool b).
Hypothesis HNum : ∀ r, P (JNum r).
Hypothesis HStr : ∀ s, P (JStr s).
Hypothesis HArr : ∀ l, Forall P l → P (JArr l).
Hypothesis HObj : ∀ fs, Forall (λ kv, P (snd kv)) fs → P (JObj fs).

Fixpoint json_nested_ind (v : json) : P v :=
  match v with
  | JNull => HNull
  | JBool b => HBool b
  | JNum r => HNum r
  | JStr s => HStr s
  | JArr l =>
      HArr l ((fix go (l : list json) : Forall P l :=
                 match l with
                 | [] => List.Forall_nil P
                 | x :: l' =>
                     List.Forall_cons P x l' (json_nested_ind x) (go l')
                 end) l)
  | JObj fs =>
      HObj fs ((fix go (fs : list (string * json))
                  : Forall (λ kv, P (snd kv)) fs :=
                  match fs with
                  | [] => List.Forall_nil _
                  | kv :: fs' =>
                      List.Forall_cons _ kv fs' (json_nested_ind (snd kv)) (go fs')
                  end) fs)
  end.
End json_induction.

(** ** Completions *)

Inductive error : Type := TypeError.

Inductive completion (A : Type) : Type :=
| Normal (a : A)
| Throw (e : error).
Arguments Normal {A} a.
Arguments Throw {A} e.

Definition cbind {A B} (c : completion A) (k : A → completion B)
  : completion B :=
  match c with
  | Normal a => k a
  | Throw e => Throw e
  end.

Notation "x ⇐ c ;; k" := (cbind c (λ x, k))
  (at level 100, c at next level, right associativity,
   format "'[v' x  ⇐  c  ;;  '/' k ']'").

(** ** JavaScript primitives used by the class *)

(** Decimal rendering of an array length. *)
Definition decimal (n : nat) : string :=
  NilZero.string_of_uint (Nat.to_uint n).

(** First own property named [k]. *)
Fixpoint own (k : string) (fs : list (string * json)) : value :=
  match fs with
  | [] => None
  | (k', v) :: fs' => if String.eqb k k' then Some v else own k fs'
  end.

(** [v.k] for a data property.  The names the class reads are [events],
    [eras], [group], [text], [headline] and [length]; none but [length] is
    defined on the prototypes of strings, numbers, booleans or arrays. *)
Definition get_prop (v : json) (k : string) : completion value :=
  match v with
  | JNull => Throw TypeError
  | JObj fs => Normal (own k fs)
  | JArr l =>
      Normal (if String.eqb k "length" then Some (JNum (decimal (length l)))
              else None)
  | JStr s =>
      Normal (if String.eqb k "length"
              then Some (JNum (decimal (String.length s))) else None)
  | JNum _ | JBool _ => Normal None
  end.

(** [v.k] where [v] may be [undefined]. *)
Definition get (v : value) (k : string) : completion value :=
  match v with
  | None => Throw TypeError
  | Some j => get_prop j k
  end.

(** [o.k = x]: replaces the value of the own property [k], or appends it.
    The class only assigns to an object on which it has just read [k]. *)
Fixpoint set_own (k : string) (x : json) (fs : list (string * json))
  : list (string * json) :=
  match fs with
  | [] => [(k, x)]
  | (k', v) :: fs' =>
      if String.eqb k k' then (k', x) :: fs' else (k', v) :: set_own k x fs'
  end.

Definition set_prop (o : json) (k : string) (x : json) : json :=
  match o with
  | JObj fs => JObj (set_own k x fs)
  | _ => o
  end.

(** The receiver of [.forEach(..)] and [.filter(..)]: only arrays carry these
    methods; on anything else the call throws. *)
Definition array_of (v : value) : completion (list json) :=
  match v with
  | Some (JArr l) => Normal l
  | _ => Throw TypeError
  end.

(** ToBoolean. *)
Definition truthy (v : value) : bool :=
  match v with
  | None | Some JNull => false
  | Some (JBool b) => b
  | Some (JNum r) => negb (String.eqb r "0")
  | Some (JStr s) => negb (String.eqb s "")
  | Some (JArr _) | Some (JObj _) => true
  end.

(** ToString.  An array is joined with commas, [null] elements rendering as
    the empty string.  An object has no callable [toString] of its own: with
    an own property of that name the conversion throws, otherwise
    [Object.prototype.toString] answers. *)
Fixpoint ToString (v : json) : completion string :=
  match v with
  | JNull => Normal "null"
  | JBool b => Normal (if b then "true" else "false")
  | JNum r => Normal r
  | JStr s => Normal s
  | JArr l =>
      (fix join (l : list json) : completion string :=
         match l with
         | [] => Normal ""
         | x :: l' =>
             s ⇐ match x with JNull => Normal "" | _ => ToString x end ;;
             match l' with
             | [] => Normal s
             | _ :: _ => r ⇐ join l' ;; Normal (s +:+ "," +:+ r)
             end
         end) l
  | JObj fs =>
      match own "toString" fs with
      | Some _ => Throw TypeError
      | None => Normal "[object Object]"
      end
  end.

(** A template-literal hole [${v}]. *)
Definition template (v : value) : completion string :=
  match v with
  | None => Normal "undefined"
  | Some j => ToString j
  end.

(** [JSON.parse(JSON.stringify(v))]: a fresh structure, rebuilt node by
    node. *)
Fixpoint JSON_copy (v : json) : json :=
  match v with
  | JArr l => JArr (List.map JSON_copy l)
  | JObj fs => JObj (List.map (λ kv, (fst kv, JSON_copy (snd kv))) fs)
  | _ => v
  end.

(** *** [Set] *)

(** SameValueZero on values of one parsed tree: primitives compare by value,
    arrays and objects by identity, and two distinct positions of a parsed
    tree never hold the same array or object. *)
Definition SameValueZero (x y : json) : bool :=
  match x, y with
  | JNull, JNull => true
  | JBool a, JBool b => Bool.eqb a b
  | JNum a, JNum b => String.eqb a b
  | JStr a, JStr b => String.eqb a b
  | _, _ => false
  end.

(** The local [Set] of [getUniqueGroups] and [getUniqueEras], in insertion
    order (the order [Array.from] lists it in). *)
Definition Set_add (s : list json) (v : json) : list json :=
  if existsb (SameValueZero v) s then s else s ++ [v].

(** The active filter sets hold string labels and are only asked [has] and
    [size], so their insertion order is not observable.  A string set holds
    no value that is not a string. *)
Definition Set_has (s : gset string) (v : value) : bool :=
  match v with
  | Some (JStr x) => bool_decide (x ∈ s)
  | _ => false
  end.

(** *** [Array.prototype.sort] with the default comparator *)

Definition SortCompare (x y : json) : completion comparison :=
  xs ⇐ ToString x ;;
  ys ⇐ ToString y ;;
  Normal (String.compare xs ys).

(** The sort is stable; the algorithm is the engine's choice.  Insertion
    from the right is one stable choice, and like any other it compares every
    element of a list of two or more at least once. *)
Fixpoint sort_insert (x : json) (l : list json) : completion (list json) :=
  match l with
  | [] => Normal [x]
  | y :: l' =>
      c ⇐ SortCompare x y ;;
      match c with
      | Gt => r ⇐ sort_insert x l' ;; Normal (y :: r)
      | _ => Normal (x :: y :: l')
      end
  end.

Fixpoint sort (l : list json) : completion (list json) :=
  match l with
  | [] => Normal []
  | x :: l' => s ⇐ sort l' ;; sort_insert x s
  end.

(** [Array.prototype.filter] with a callback that may throw. *)
Fixpoint Array_filter (f : json → completion bool) (l : list json)
  : completion (list json) :=
  match l with
  | [] => Normal []
  | x :: l' =>
      b ⇐ f x ;;
      r ⇐ Array_filter f l' ;;
      Normal (if b then x :: r else r)
  end.

(** ** State: the instance and the page *)

(** The fields of a [TimelineFilter].  [timeline] is the widget built by
    [new TL.Timeline('timeline-embed', data)], known here by the data it was
    built from ([None] is the initial [null]). *)
Record TimelineFilter : Type := {
  originalData : json;
  currentData : json;
  timeline : option json;
  activeGroupFilters : gset string;
  activeEraFilters : gset string
}.

(** A filter button: whether its class list has [show-all] and [active], and
    its text. *)
Record button : Type := {
  show_all : bool;
  textContent : string;
  active : bool
}.

(** The page: the children of [#group-filters] and [#era-filters], the text
    of [#filter-status] and what [#timeline-embed] displays.  The page is
    taken to have these four elements. *)
Record Document : Type := {
  group_filters : list button;
  era_filters : list button;
  filter_status : string;
  timeline_embed : option json
}.

Record world : Type := {
  this : TimelineFilter;
  document : Document
}.

Definition with_currentData (d : json) (t : TimelineFilter) : TimelineFilter :=
  {| originalData := originalData t; currentData := d;
     timeline := timeline t;
     activeGroupFilters := activeGroupFilters t;
     activeEraFilters := activeEraFilters t |}.

Definition with_timeline (tl : option json) (t : TimelineFilter)
  : TimelineFilter :=
  {| originalData := originalData t; currentData := currentData t;
     timeline := tl;
     activeGroupFilters := activeGroupFilters t;
     activeEraFilters := activeEraFilters t |}.

Definition with_activeGroupFilters (s : gset string) (t : TimelineFilter)
  : TimelineFilter :=
  {| originalData := originalData t; currentData := currentData t;
     timeline := timeline t;
     activeGroupFilters := s;
     activeEraFilters := activeEraFilters t |}.

Definition with_activeEraFilters (s : gset string) (t : TimelineFilter)
  : TimelineFilter :=
  {| originalData := originalData t; currentData := currentData t;
     timeline := timeline t;
     activeGroupFilters := activeGroupFilters t;
     activeEraFilters := s |}.

Definition with_group_filters (bs : list button) (d : Document) : Document :=
  {| group_filters := bs; era_filters := era_filters d;
     filter_status := filter_status d; timeline_embed := timeline_embed d |}.

Definition with_era_filters (bs : list button) (d : Document) : Document :=
  {| group_filters := group_filters d; era_filters := bs;
     filter_status := filter_status d; timeline_embed := timeline_embed d |}.

Definition with_filter_status (s : string) (d : Document) : Document :=
  {| group_filters := group_filters d; era_filters := era_filters d;
     filter_status := s; timeline_embed := timeline_embed d |}.

Definition with_timeline_embed (e : option json) (d : Document) : Document :=
  {| group_filters := group_filters d; era_filters := era_filters d;
     filter_status := filter_status d; timeline_embed := e |}.

Definition with_active (a : bool) (b : button) : button :=
  {| show_all := show_all b; textContent := textContent b; active := a |}.

(** ** Methods as state transformers *)

Definition M (A : Type) : Type := world → completion A * world.

Definition ret {A} (a : A) : M A := λ w, (Normal a, w).

Definition bind {A B} (m : M A) (k : A → M B) : M B :=
  λ w, match m w with
       | (Normal a, w') => k a w'
       | (Throw e, w') => (Throw e, w')
       end.

Notation "x <- m ;; k" := (bind m (λ x, k))
  (at level 100, m at next level, right associativity,
   format "'[v' x  <-  m  ;;  '/' k ']'").
Notation "m ;; k" := (bind m (λ _, k))
  (at level 100, right associativity, format "'[v' m  ;;  '/' k ']'").

(** A computation that touches no state. *)
Definition lift {A} (c : completion A) : M A := λ w, (c, w).

(** [this.f] *)
Definition read {A} (f : TimelineFilter → A) : M A :=
  λ w, (Normal (f (this w)), w).

(** [this.f = ..] *)
Definition assign (upd : TimelineFilter → TimelineFilter) : M unit :=
  λ w, (Normal tt, {| this := upd (this w); document := document w |}).

(** A write to the page. *)
Definition page (upd : Document → Document) : M unit :=
  λ w, (Normal tt, {| this := this w; document := upd (document w) |}).

(** [l.forEach(f)] *)
Fixpoint forEach {A} (l : list A) (f : A → M unit) : M unit :=
  match l with
  | [] => ret tt
  | x :: l' => f x ;; forEach l' f
  end.

(** The state a method leaves behind, and how it completed. *)
Definition exec {A} (m : M A) (w : world) : world := snd (m w).
Definition outcome {A} (m : M A) (w : world) : completion A := fst (m w).

(** ** The class [TimelineFilter] *)

(** The body of the two vocabulary loops: [if (v) set.add(v)]. *)
Definition add_if_truthy (set : list json) (v : value) : list json :=
  match v with
  | Some j => if truthy v then Set_add set j else set
  | None => set
  end.

(** A [forEach] whose callback updates a local of the enclosing method. *)
Fixpoint forEach_local {A S} (f : S → A → completion S) (l : list A) (s : S)
  : completion S :=
  match l with
  | [] => Normal s
  | x :: l' => s' ⇐ f s x ;; forEach_local f l' s'
  end.

Definition getUniqueGroups (t : TimelineFilter) : completion (list json) :=
  events ⇐ get_prop (originalData t) "events" ;;
  l ⇐ array_of events ;;
  groups ⇐ forEach_local
             (λ groups event,
                g ⇐ get_prop event "group" ;;
                Normal (add_if_truthy groups g))
             l [] ;;
  sort groups.

Definition getUniqueEras (t : TimelineFilter) : completion (list json) :=
  eras_field ⇐ get_prop (originalData t) "eras" ;;
  eras ⇐ (if truthy eras_field then
            l ⇐ array_of eras_field ;;
            forEach_local
              (λ eras era,
                 text ⇐ get_prop era "text" ;;
                 if truthy text then
                   headline ⇐ get text "headline" ;;
                   Normal (add_if_truthy eras headline)
                 else Normal eras)
              l []
          else Normal []) ;;
  sort eras.

(** The buttons of one container: the "Show All" button, then one button
    per truthy label; assigning a label to [textContent] converts it to a
    string. *)
Definition add_label_button
    (append : button → Document → Document) (label : json) : M unit :=
  if truthy (Some label) then
    text <- lift (ToString label) ;;
    page (append {| show_all := false; textContent := text; active := false |})
  else ret tt.

Definition generateGroupButtons : M unit :=
  t <- read id ;;
  groups <- lift (getUniqueGroups t) ;;
  page (with_group_filters []) ;;
  page (λ d, with_group_filters
               (group_filters d ++
                [{| show_all := true; textContent := "Show All Groups";
                    active := false |}]) d) ;;
  forEach groups
    (add_label_button (λ b d, with_group_filters (group_filters d ++ [b]) d)).

Definition generateEraButtons : M unit :=
  t <- read id ;;
  eras <- lift (getUniqueEras t) ;;
  page (with_era_filters []) ;;
  page (λ d, with_era_filters
               (era_filters d ++
                [{| show_all := true; textContent := "Show All Eras";
                    active := false |}]) d) ;;
  forEach eras
    (add_label_button (λ b d, with_era_filters (era_filters d ++ [b]) d)).

Definition generateFilterButtons : M unit :=
  generateGroupButtons ;;
  generateEraButtons.

(** [TL.Timeline] is the external widget: building it on [data] displays
    [data] in [#timeline-embed]. *)
Definition createTimeline : M unit :=
  tl <- read timeline ;;
  (if tl is Some _ then page (with_timeline_embed None) else ret tt) ;;
  data <- read currentData ;;
  page (with_timeline_embed (Some data)) ;;
  assign (with_timeline (Some data)).

Definition recreateTimeline : M unit := createTimeline.

(** [data.eras ? data.eras.length : 0] *)
Definition eras_length (data : json) : completion value :=
  eras ⇐ get_prop data "eras" ;;
  if truthy eras then get eras "length" else Normal (Some (JNum "0")).

Definition updateFilterStatus : M unit :=
  t <- read id ;;
  totalEvents <- lift (events ⇐ get_prop (originalData t) "events" ;;
                       get events "length") ;;
  filteredEvents <- lift (events ⇐ get_prop (currentData t) "events" ;;
                          get events "length") ;;
  totalEras <- lift (eras_length (originalData t)) ;;
  filteredEras <- lift (eras_length (currentData t)) ;;
  if Nat.eqb (size (activeGroupFilters t)) 0
     && Nat.eqb (size (activeEraFilters t)) 0
  then page (with_filter_status "Showing all events")
  else
    parts0 <- lift (if Nat.ltb 0 (size (activeGroupFilters t)) then
                      f ⇐ template filteredEvents ;;
                      n ⇐ template totalEvents ;;
                      Normal [f +:+ "/" +:+ n +:+ " events"]
                    else Normal []) ;;
    parts <- lift (if Nat.ltb 0 (size (activeEraFilters t)) then
                     f ⇐ template filteredEras ;;
                     n ⇐ template totalEras ;;
                     Normal (parts0 ++ [f +:+ "/" +:+ n +:+ " eras"])
                   else Normal parts0) ;;
    page (with_filter_status ("Showing " +:+ String.concat ", " parts)).

(** The callbacks of the two [filter] calls. *)
Definition group_selected (groups : gset string) (event : json)
  : completion bool :=
  g ⇐ get_prop event "group" ;;
  Normal (Set_has groups g).

Definition era_selected (eras : gset string) (era : json) : completion bool :=
  text ⇐ get_prop era "text" ;;
  headline ⇐ get text "headline" ;;
  Normal (Set_has eras headline).

(** "Filter events by group" *)
Definition filterEvents : M unit :=
  groups <- read activeGroupFilters ;;
  if Nat.ltb 0 (size groups) then
    data <- read currentData ;;
    kept <- lift (events ⇐ get_prop data "events" ;;
                  l ⇐ array_of events ;;
                  Array_filter (group_selected groups) l) ;;
    assign (with_currentData (set_prop data "events" (JArr kept)))
  else ret tt.

(** "Filter eras" *)
Definition filterEras : M unit :=
  eras <- read activeEraFilters ;;
  if Nat.ltb 0 (size eras) then
    data <- read currentData ;;
    eras_field <- lift (get_prop data "eras") ;;
    if truthy eras_field then
      kept <- lift (l ⇐ array_of eras_field ;;
                    Array_filter (era_selected eras) l) ;;
      assign (with_currentData (set_prop data "eras" (JArr kept)))
    else ret tt
  else ret tt.

Definition applyFilters : M unit :=
  assign (λ t, with_currentData (JSON_copy (originalData t)) t) ;;
  filterEvents ;;
  filterEras ;;
  recreateTimeline ;;
  updateFilterStatus.

(** The [button] argument of the two toggles is the position of the clicked
    button among the children of its container; the label is a string. *)
Definition toggleGroupFilter (group : string) (button : nat) : M unit :=
  active_set <- read activeGroupFilters ;;
  (if bool_decide (group ∈ active_set) then
     assign (with_activeGroupFilters (active_set ∖ {[group]})) ;;
     page (λ d, with_group_filters
                  (alter (with_active false) button (group_filters d)) d)
   else
     assign (with_activeGroupFilters (active_set ∪ {[group]})) ;;
     page (λ d, with_group_filters
                  (alter (with_active true) button (group_filters d)) d)) ;;
  applyFilters.

Definition toggleEraFilter (era : string) (button : nat) : M unit :=
  active_set <- read activeEraFilters ;;
  (if bool_decide (era ∈ active_set) then
     assign (with_activeEraFilters (active_set ∖ {[era]})) ;;
     page (λ d, with_era_filters
                  (alter (with_active false) button (era_filters d)) d)
   else
     assign (with_activeEraFilters (active_set ∪ {[era]})) ;;
     page (λ d, with_era_filters
                  (alter (with_active true) button (era_filters d)) d)) ;;
  applyFilters.

(** [querySelectorAll('.filter-btn:not(.show-all)')] then
    [classList.remove('active')] on each. *)
Definition deactivate (b : button) : button :=
  if show_all b then b else with_active false b.

Definition clearGroupFilters : M unit :=
  assign (with_activeGroupFilters ∅) ;;
  page (λ d, with_group_filters (List.map deactivate (group_filters d)) d) ;;
  applyFilters.

Definition clearEraFilters : M unit :=
  assign (with_activeEraFilters ∅) ;;
  page (λ d, with_era_filters (List.map deactivate (era_filters d)) d) ;;
  applyFilters.

Definition init : M unit :=
  generateFilterButtons ;;
  createTimeline ;;
  updateFilterStatus.

(** [new TimelineFilter(timelineData)] on a page [doc]: the instance when
    the constructor completes, and the page it leaves either way. *)
Definition constructor (timelineData : json) (doc : Document)
  : completion TimelineFilter * Document :=
  let fresh :=
    {| originalData := JSON_copy timelineData;
       currentData := JSON_copy timelineData;
       timeline := None;
       activeGroupFilters := ∅;
       activeEraFilters := ∅ |} in
  match init {| this := fresh; document := doc |} with
  | (Normal _, w) => (Normal (this w), document w)
  | (Throw e, w) => (Throw e, document w)
  end.

(** User actions on a constructed instance, and their effect in sequence.
    An action that throws leaves the instance as the exception found it; the
    next action runs from there. *)
Inductive action : Type :=
| ToggleGroup (group : string) (button : nat)
| ToggleEra (era : string) (button : nat)
| ClearGroups
| ClearEras.

Definition perform (a : action) : M unit :=
  match a with
  | ToggleGroup g b => toggleGroupFilter g b
  | ToggleEra e b => toggleEraFilter e b
  | ClearGroups => clearGroupFilters
  | ClearEras => clearEraFilters
  end.

Definition session (actions : list action) (w : world) : world :=
  fold_left (λ w a, exec (perform a) w) actions w.

(** ** Vocabulary of the statements *)

(** The events sequence of a dataset. *)
Definition events_in (data : json) (l : list json) : Prop :=
  get_prop data "events" = Normal (Some (JArr l)).

(** The eras sequence of a dataset. *)
Definition eras_in (data : json) (l : list json) : Prop :=
  get_prop data "eras" = Normal (Some (JArr l)).

(** The group label of an event and the headline label of an era, when the
    record carries one as a string. *)
Definition has_group (event : json) (label : string) : Prop :=
  get_prop event "group" = Normal (Some (JStr label)).

Definition has_headline (era : json) (label : string) : Prop :=
  ∃ text, get_prop era "text" = Normal (Some text)
          ∧ get_prop text "headline" = Normal (Some (JStr label)).

(** JavaScript's order on strings, unit by unit. *)
Definition str_lt (a b : string) : Prop := String.compare a b = Lt.
Definition str_le (a b : string) : Prop := String.compare a b ≠ Gt.

(** *** Frames

    What a method reads and what it leaves alone. *)

(** The part of the state the filtered view is computed from and stored
    in. *)
Definition core (w : world) : json * json * gset string * gset string :=
  (originalData (this w), currentData (this w),
   activeGroupFilters (this w), activeEraFilters (this w)).

(** [m] looks at nothing but the core, as far as its completion and the core
    it leaves are concerned. *)
Definition respects {A} (m : M A) : Prop :=
  ∀ w1 w2, core w1 = core w2 →
    outcome m w1 = outcome m w2 ∧ core (exec m w1) = core (exec m w2).

(** [m] leaves the stored dataset and the selection alone. *)
Definition keeps_selection {A} (m : M A) : Prop :=
  ∀ w, originalData (this (exec m w)) = originalData (this w)
       ∧ activeGroupFilters (this (exec m w)) = activeGroupFilters (this w)
       ∧ activeEraFilters (this (exec m w)) = activeEraFilters (this w).

(** [m] leaves the whole core alone. *)
Definition keeps_core {A} (m : M A) : Prop :=
  ∀ w, core (exec m w) = core w.

Definition set_currentData (d : json) (w : world) : world :=
  {| this := with_currentData d (this w); document := document w |}.

(** The tail of [applyFilters], after [currentData] has been reset. *)
Definition refilter : M unit :=
  filterEvents ;; filterEras ;; recreateTimeline ;; updateFilterStatus.

(** Whether the [group] of an event is a label of the set: the group
    predicate as the specification words it. *)
Definition group_in (groups : gset string) (event : json) : bool :=
  match get_prop event "group" with
  | Normal (Some (JStr g)) => bool_decide (g ∈ groups)
  | _ => false
  end.

(** The view the instance holds is the one [applyFilters] computes from the
    stored dataset and the selection it holds. *)
Definition settled (w : world) : Prop :=
  currentData (this w) = currentData (this (exec applyFilters w)).

(** The eras sequence of a dataset, empty when the dataset has none. *)
Definition eras_or_none (data : json) (l : list json) : Prop :=
  eras_in data l ∨ (get_prop data "eras" = Normal None ∧ l = []).

(** The text of the status line as the specification words it, for given
    sequences and selection. *)
Definition status_line (groups eras : gset string)
    (total_events shown_events total_eras shown_eras : list json) : string :=
  let no_group := bool_decide (groups = ∅) in
  let no_era := bool_decide (eras = ∅) in
  if no_group && no_era then "Showing all events"
  else "Showing " +:+
       String.concat ", "
         ((if no_group then []
           else [decimal (length shown_events) +:+ "/" +:+
                 decimal (length total_events) +:+ " events"])
          ++ (if no_era then []
              else [decimal (length shown_eras) +:+ "/" +:+
                    decimal (length total_eras) +:+ " eras"])).

(** *** The input shape *)

(** A label position holds a string or nothing. *)
Definition string_or_absent (v : value) : Prop :=
  v = None ∨ ∃ s, v = Some (JStr s).

(** An event is a record whose [group], if any, is a string. *)
Definition event_wf (event : json) : Prop :=
  ∃ g, get_prop event "group" = Normal g ∧ string_or_absent g.

(** An era is a record whose [text.headline], where [text] has properties
    at all, is a string if present. *)
Definition era_wf (era : json) : Prop :=
  ∃ text, get_prop era "text" = Normal text
          ∧ ∀ h, get text "headline" = Normal h → string_or_absent h.

(** The value [getUniqueEras] offers to its set for an era. *)
Definition headline_value (era : json) : value :=
  match get_prop era "text" with
  | Normal text =>
      if truthy text then
        match get text "headline" with
        | Normal h => h
        | Throw _ => None
        end
      else None
  | Throw _ => None
  end.

(** [labels] is the vocabulary of the labels satisfying [P]: each non-empty
    one exactly once, in ascending order. *)
Definition is_vocabulary (labels : list string) (P : string → Prop) : Prop :=
  StronglySorted str_lt labels
  ∧ NoDup labels
  ∧ ∀ s, s ∈ labels ↔ s ≠ "" ∧ P s.

(** The era has a [text] that properties can be read from. *)
Definition era_has_text (era : json) : Prop :=
  ∃ text, get_prop era "text" = Normal (Some text) ∧ text ≠ JNull.

(** Whether the [text.headline] of an era is a label of the set: the era
    predicate as the specification words it. *)
Definition headline_in (eras : gset string) (era : json) : bool :=
  match get_prop era "text" with
  | Normal (Some text) =>
      match get_prop text "headline" with
      | Normal (Some (JStr h)) => bool_decide (h ∈ eras)
      | _ => false
      end
  | _ => false
  end.

(** The input shape: [events] is a sequence of records with string groups,
    [eras] is absent or a sequence of records with string headlines. *)
Definition dataset_wf (data : json) : Prop :=
  (∃ evs, events_in data evs ∧ Forall event_wf evs)
  ∧ (get_prop data "eras" = Normal None
     ∨ ∃ ers, eras_in data ers ∧ Forall era_wf ers).

Definition eras_have_text (data : json) : Prop :=
  ∀ ers, eras_in data ers → Forall era_has_text ers.

(** ** Sample timelines *)

Definition date (year : string) : json := JObj [("year", JStr year)].

Definition event_of (year headline : string) (group : option string) : json :=
  JObj ([("start_date", date year);
         ("text", JObj [("headline", JStr headline)])]
        ++ match group with
           | Some g => [("group", JStr g)]
           | None => []
           end).

Definition era_of (first last : string) (headline : option string) : json :=
  JObj ([("start_date", date first); ("end_date", date last)]
        ++ match headline with
           | Some h => [("text", JObj [("headline", JStr h)])]
           | None => []
           end).

Definition sample_events : list json :=
  [event_of "2025" "Kickoff" (Some "Planning");
   event_of "2025" "Budget" (Some "Planning");
   event_of "2025" "Prototype" (Some "Delivery");
   event_of "2025" "Retrospective" (Some "Review");
   event_of "2025" "Roadmap" (Some "Planning");
   event_of "2026" "Beta" (Some "Delivery");
   event_of "2026" "Holiday" None;
   event_of "2026" "Staffing" (Some "Planning");
   event_of "2026" "Launch" (Some "Delivery");
   event_of "2026" "Audit" (Some "Review")].

Definition sample_eras : list json :=
  [era_of "2025" "2025" (Some "Phase 2");
   era_of "2025" "2026" (Some "Phase 1");
   era_of "2026" "2026" (Some "Phase 3")].

(** Ten events, four of them in group "Planning", and three eras. *)
Definition sample_timeline : json :=
  JObj [("title", JObj [("text", JObj [("headline", JStr "2025-2026")])]);
        ("events", JArr sample_events);
        ("eras", JArr sample_eras)].

(** A timeline whose last era has no [text]. *)
Definition untitled_eras : list json :=
  [era_of "2025" "2025" (Some "Phase 1");
   era_of "2025" "2026" (Some "Phase 2");
   era_of "2026" "2026" None].

Definition untitled_timeline : json :=
  JObj [("events", JArr sample_events); ("eras", JArr untitled_eras)].

Definition blank_page : Document :=
  {| group_filters := []; era_filters := [];
     filter_status := ""; timeline_embed := None |}.

Definition label_button (text : string) : button :=
  {| show_all := false; textContent := text; active := false |}.

(** What [new TimelineFilter(sample_timeline)] builds on the blank page. *)
Definition sample_instance : TimelineFilter :=
  {| originalData := sample_timeline;
     currentData := sample_timeline;
     timeline := Some sample_timeline;
     activeGroupFilters := ∅;
     activeEraFilters := ∅ |}.

Definition sample_page : Document :=
  {| group_filters :=
       [{| show_all := true; textContent := "Show All Groups";
           active := false |};
        label_button "Delivery"; label_button "Planning";
        label_button "Review"];
     era_filters :=
       [{| show_all := true; textContent := "Show All Eras";
           active := false |};
        label_button "Phase 1"; label_button "Phase 2";
        label_button "Phase 3"];
     filter_status := "Showing all events";
     timeline_embed := Some sample_timeline |}.

Definition sample_world : world :=
  {| this := sample_instance; document := sample_page |}.

(** What [new TimelineFilter(untitled_timeline)] builds on the blank page:
    the era without text gets no button. *)
Definition untitled_instance : TimelineFilter :=
  {| originalData := untitled_timeline;
     currentData := untitled_timeline;
     timeline := Some untitled_timeline;
     activeGroupFilters := ∅;
     activeEraFilters := ∅ |}.

Definition untitled_page : Document :=
  {| group_filters :=
       [{| show_all := true; textContent := "Show All Groups";
           active := false |};
        label_button "Delivery"; label_button "Planning";
        label_button "Review"];
     era_filters :=
       [{| show_all := true; textContent := "Show All Eras";
           active := false |};
        label_button "Phase 1"; label_button "Phase 2"];
     filter_status := "Showing all events";
     timeline_embed := Some untitled_timeline |}.

Definition untitled_world : world :=
  {| this := untitled_instance; document := untitled_page |}.

(** Three events in groups A, B, A. *)
Definition aba_timeline : json :=
  JObj [("events", JArr [JObj [("group", JStr "A")];
                         JObj [("group", JStr "B")];
                         JObj [("group", JStr "A")]])].

Definition aba_world : world :=
  {| this :=
       {| originalData := aba_timeline;
          currentData := aba_timeline;
          timeline := Some aba_timeline;
          activeGroupFilters := ∅;
          activeEraFilters := ∅ |};
     document :=
       {| group_filters :=
            [{| show_all := true; textContent := "Show All Groups";
                active := false |};
             label_button "A"; label_button "B"];
          era_filters :=
            [{| show_all := true; textContent := "Show All Eras";
                active := false |}];
          filter_status := "Showing all events";
          timeline_embed := Some aba_timeline |} |}.

(** An era whose text has no headline, after an era with one. *)
Definition plain_era : json :=
  JObj [("text", JObj [("text", JStr "no headline")])].

Definition plain_timeline : json :=
  JObj [("events", JArr []);
        ("eras", JArr [era_of "2025" "2025" (Some "Phase 1"); plain_era])].

Definition plain_world : world :=
  {| this :=
       {| originalData := plain_timeline;
          currentData := plain_timeline;
          timeline := Some plain_timeline;
          activeGroupFilters := ∅;
          activeEraFilters := ∅ |};
     document :=
       {| group_filters :=
            [{| show_all := true; textContent := "Show All Groups";
                active := false |}];
          era_filters :=
            [{| show_all := true; textContent := "Show All Eras";
                active := false |};
             label_button "Phase 1"];
          filter_status := "Showing all events";
          timeline_embed := Some plain_timeline |} |}.

(** The sample after a click on the button of group "Planning". *)
Definition planning_world : world :=
  exec (toggleGroupFilter "Planning" 2) sample_world.

(** ** Clicks *)






(** ** The view and the page in the words of the specification *)

(** The events and the eras of a dataset, none when it has no such
    sequence. *)
Definition events_of (data : json) : list json :=
  match get_prop data "events" with
  | Normal (Some (JArr l)) => l
  | _ => []
  end.

Definition eras_of (data : json) : list json :=
  match get_prop data "eras" with
  | Normal (Some (JArr l)) => l
  | _ => []
  end.

(** The dataset with its events restricted to the active groups, and with
    its eras restricted to the active headlines; an empty set restricts
    nothing. *)
Definition select_events (groups : gset string) (data : json) : json :=
  if bool_decide (groups = ∅) then data
  else set_prop data "events"
         (JArr (List.filter (group_in groups) (events_of data))).

Definition select_eras (eras : gset string) (data : json) : json :=
  if bool_decide (eras = ∅) then data
  else match get_prop data "eras" with
       | Normal (Some (JArr l)) =>
           set_prop data "eras" (JArr (List.filter (headline_in eras) l))
       | _ => data
       end.

(** The filtered view of a dataset under a selection. *)
Definition recompute (data : json) (groups eras : gset string) : json :=
  select_eras eras (select_events groups data).

(** The buttons of a container: "Show All", then one per label, active when
    the label is in the set. *)
Definition show_all_button (title : string) : button :=
  {| show_all := true; textContent := title; active := false |}.

Definition toggle_button (set : gset string) (label : string) : button :=
  {| show_all := false; textContent := label;
     active := bool_decide (label ∈ set) |}.

Definition buttons_for (title : string) (labels : list string)
    (set : gset string) : list button :=
  show_all_button title :: List.map (toggle_button set) labels.

(** A set with one label flipped. *)
Definition toggled (label : string) (set : gset string) : gset string :=
  if bool_decide (label ∈ set) then set ∖ {[label]} else set ∪ {[label]}.

(** [m] leaves the part [f] of the state alone, also when it throws. *)
Definition keeps_field {A B} (f : world → B) (m : M A) : Prop :=
  ∀ w, f (exec m w) = f w.

(** The buttons of the page. *)
Definition buttons (w : world) : list button * list button :=
  (group_filters (document w), era_filters (document w)).

(** The selection. *)
Definition selection (w : world) : gset string * gset string :=
  (activeGroupFilters (this w), activeEraFilters (this w)).

(** What is on display: the widget, its element and the status line. *)
Definition display (w : world) : option json * option json * string :=
  (timeline (this w), timeline_embed (document w),
   filter_status (document w)).

(** The state [applyFilters] leaves on a dataset it does not fault on. *)
Definition refiltered (w : world) : world :=
  let view :=
    recompute (originalData (this w)) (activeGroupFilters (this w))
      (activeEraFilters (this w)) in
  {| this :=
       {| originalData := originalData (this w);
          currentData := view;
          timeline := Some view;
          activeGroupFilters := activeGroupFilters (this w);
          activeEraFilters := activeEraFilters (this w) |};
     document :=
       {| group_filters := group_filters (document w);
          era_filters := era_filters (document w);
          filter_status :=
            status_line (activeGroupFilters (this w))
              (activeEraFilters (this w))
              (events_of (originalData (this w))) (events_of view)
              (eras_of (originalData (this w))) (eras_of view);
          timeline_embed := Some view |} |}.

(** The instance and the page the constructor builds from [D]. *)
Definition built (D : json) (groups eras : list string) : world :=
  {| this :=
       {| originalData := D; currentData := D; timeline := Some D;
          activeGroupFilters := ∅; activeEraFilters := ∅ |};
     document :=
       {| group_filters := buttons_for "Show All Groups" groups ∅;
          era_filters := buttons_for "Show All Eras" eras ∅;
          filter_status := "Showing all events";
          timeline_embed := Some D |} |}.


(** The sample and the timeline with an untitled era under a selection. *)
Definition sample_selected (groups eras : gset string) : world :=
  {| this :=
       with_activeEraFilters eras
         (with_activeGroupFilters groups sample_instance);
     document := sample_page |}.

Definition untitled_selected (groups eras : gset string) : world :=
  {| this :=
       with_activeEraFilters eras
         (with_activeGroupFilters groups untitled_instance);
     document := untitled_page |}.

(** A dataset without events. *)
Definition eventless_timeline : json :=
  JObj [("title", JObj [("text", JObj [("headline", JStr "2025-2026")])])].

(** * Properties *)

(** ** Data *)

Lemma JSON_copy_id (v : json) : JSON_copy v = v.
Proof.
  induction v as [| | | |l IH|fs IH] using json_nested_ind;
    simpl; try reflexivity; f_equal.
  - induction IH as [|x l Hx _ IHl]; simpl; congruence.
  - induction IH as [|[k x] fs Hx _ IHfs]; simpl in *; congruence.
Qed.

Lemma own_set_own_eq k x fs : own k (set_own k x fs) = Some x.
Proof.
  induction fs as [|[k' v] fs IH]; simpl.
  - by rewrite String.eqb_refl.
  - destruct (String.eqb k k') eqn:E; simpl; rewrite E; auto.
Qed.

Lemma own_set_own_ne k k' x fs :
  k ≠ k' → own k (set_own k' x fs) = own k fs.
Proof.
  intros Hne. induction fs as [|[k0 v] fs IH]; simpl.
  - by apply String.eqb_neq in Hne as ->.
  - destruct (String.eqb k' k0) eqn:E; simpl.
    + apply String.eqb_eq in E as <-.
      by apply String.eqb_neq in Hne as ->.
    + by rewrite IH.
Qed.

Lemma get_prop_set_prop_ne o k k' x :
  k ≠ k' → get_prop (set_prop o k' x) k = get_prop o k.
Proof.
  intros Hne. destruct o; simpl; try reflexivity.
  by rewrite own_set_own_ne.
Qed.

(** A value with a truthy or array-valued named property other than
    [length] is an object, and assigning the property replaces it. *)
Lemma get_prop_set_prop_eq o k x v :
  k ≠ "length" → get_prop o k = Normal (Some v) →
  get_prop (set_prop o k x) k = Normal (Some x).
Proof.
  intros Hk. apply String.eqb_neq in Hk.
  destruct o; simpl; rewrite ?Hk; try discriminate.
  intros _. by rewrite own_set_own_eq.
Qed.

Lemma Array_filter_sublist f l kept :
  Array_filter f l = Normal kept → sublist kept l.
Proof.
  revert kept. induction l as [|x l IH]; simpl; intros kept H.
  - injection H as <-. constructor.
  - destruct (f x) as [b|]; simpl in H; [|discriminate].
    destruct (Array_filter f l) as [r|]; simpl in H; [|discriminate].
    injection H as <-. destruct b; [apply sublist_skip|apply sublist_cons];
      by apply IH.
Qed.

Lemma Array_filter_throw f l x :
  x ∈ l → f x = Throw TypeError → Array_filter f l = Throw TypeError.
Proof.
  induction 1 as [x l|x y l _ IH]; simpl; intros Hx.
  - by rewrite Hx.
  - destruct (f y) as [b|[]]; simpl; [|done]. by rewrite IH.
Qed.

(** ** What the methods read and write *)

Ltac run :=
  unfold outcome, exec, bind, read, assign, page, lift, ret; simpl.

Ltac same_core w1 w2 H :=
  destruct w1 as [[o1 c1 t1 g1 e1] d1], w2 as [[o2 c2 t2 g2 e2] d2];
  unfold core in H; simpl in H; injection H as -> -> -> ->.

Lemma respects_seq {A B} (m : M A) (k : M B) :
  respects m → respects k → respects (m ;; k).
Proof.
  intros Hm Hk w1 w2 Hw. destruct (Hm w1 w2 Hw) as [Ho Hc].
  unfold outcome, exec, bind in *.
  destruct (m w1) as [[a1|e1] w1'], (m w2) as [[a2|e2] w2'];
    simpl in *; try discriminate.
  - by apply Hk.
  - by injection Ho as ->.
Qed.

Lemma keeps_selection_seq {A B} (m : M A) (k : M B) :
  keeps_selection m → keeps_selection k → keeps_selection (m ;; k).
Proof.
  intros Hm Hk w. specialize (Hm w). unfold exec, bind in *.
  destruct (m w) as [[a|e] w']; simpl in *; [|done].
  destruct (Hk w') as (H1 & H2 & H3). unfold exec in *.
  by rewrite H1, H2, H3.
Qed.

Lemma keeps_core_selection {A} (m : M A) : keeps_core m → keeps_selection m.
Proof.
  intros H w. specialize (H w). unfold core in H. by simplify_eq.
Qed.

Lemma keeps_core_bind {A B} (m : M A) (k : A → M B) :
  keeps_core m → (∀ a, keeps_core (k a)) → keeps_core (bind m k).
Proof.
  intros Hm Hk w. specialize (Hm w). unfold exec, bind in *.
  destruct (m w) as [[a|e] w']; simpl in *; [|done].
  by rewrite <- Hm, <- (Hk a w').
Qed.

Lemma keeps_core_ret {A} (a : A) : keeps_core (ret a).
Proof. done. Qed.

Lemma keeps_core_lift {A} (c : completion A) : keeps_core (lift c).
Proof. done. Qed.

Lemma keeps_core_read {A} (f : TimelineFilter → A) : keeps_core (read f).
Proof. done. Qed.

Lemma keeps_core_page upd : keeps_core (page upd).
Proof. done. Qed.

Lemma keeps_core_timeline tl : keeps_core (assign (with_timeline tl)).
Proof. done. Qed.

Lemma keeps_core_forEach {A} (l : list A) (f : A → M unit) :
  (∀ a, keeps_core (f a)) → keeps_core (forEach l f).
Proof.
  intros Hf. induction l; simpl; [done|].
  apply keeps_core_bind; auto.
Qed.

Ltac keeps_core_step :=
  match goal with
  | |- keeps_core (bind _ _) => apply keeps_core_bind; [|intros ?]
  | |- keeps_core (ret _) => apply keeps_core_ret
  | |- keeps_core (lift _) => apply keeps_core_lift
  | |- keeps_core (read _) => apply keeps_core_read
  | |- keeps_core (page _) => apply keeps_core_page
  | |- keeps_core (assign (with_timeline _)) => apply keeps_core_timeline
  | |- keeps_core (forEach _ _) => apply keeps_core_forEach; intros ?
  | |- keeps_core (if ?b then _ else _) => destruct b
  | |- keeps_core (match ?x with Some _ => _ | None => _ end) => destruct x
  end.

Lemma createTimeline_keeps_core : keeps_core createTimeline.
Proof. unfold createTimeline. repeat keeps_core_step. Qed.

Lemma createTimeline_outcome w : outcome createTimeline w = Normal tt.
Proof. unfold createTimeline. run. by destruct (timeline (this w)). Qed.

Lemma updateFilterStatus_keeps_core : keeps_core updateFilterStatus.
Proof. unfold updateFilterStatus. repeat keeps_core_step. Qed.

Lemma generateGroupButtons_keeps_core : keeps_core generateGroupButtons.
Proof.
  unfold generateGroupButtons, add_label_button. repeat keeps_core_step.
Qed.

Lemma generateEraButtons_keeps_core : keeps_core generateEraButtons.
Proof.
  unfold generateEraButtons, add_label_button. repeat keeps_core_step.
Qed.

Lemma generateFilterButtons_keeps_core : keeps_core generateFilterButtons.
Proof.
  unfold generateFilterButtons. repeat keeps_core_step;
    auto using generateGroupButtons_keeps_core, generateEraButtons_keeps_core.
Qed.

Lemma init_keeps_core : keeps_core init.
Proof.
  unfold init. repeat keeps_core_step;
    auto using generateFilterButtons_keeps_core, createTimeline_keeps_core,
      updateFilterStatus_keeps_core.
Qed.

Lemma filterEvents_run w :
  filterEvents w =
  let groups := activeGroupFilters (this w) in
  let data := currentData (this w) in
  if Nat.ltb 0 (size groups) then
    match (events ⇐ get_prop data "events" ;;
           l ⇐ array_of events ;;
           Array_filter (group_selected groups) l) with
    | Normal kept =>
        (Normal tt, set_currentData (set_prop data "events" (JArr kept)) w)
    | Throw e => (Throw e, w)
    end
  else (Normal tt, w).
Proof.
  unfold filterEvents. run.
  destruct (Nat.ltb 0 _); [|done]. by destruct (cbind _ _).
Qed.

Lemma filterEras_run w :
  filterEras w =
  let eras := activeEraFilters (this w) in
  let data := currentData (this w) in
  if Nat.ltb 0 (size eras) then
    match get_prop data "eras" with
    | Normal eras_field =>
        if truthy eras_field then
          match (l ⇐ array_of eras_field ;;
                 Array_filter (era_selected eras) l) with
          | Normal kept =>
              (Normal tt, set_currentData (set_prop data "eras" (JArr kept)) w)
          | Throw e => (Throw e, w)
          end
        else (Normal tt, w)
    | Throw e => (Throw e, w)
    end
  else (Normal tt, w).
Proof.
  unfold filterEras. run.
  destruct (Nat.ltb 0 _); [|done].
  destruct (get_prop _ _) as [v|]; [|done].
  destruct (truthy v); [|done]. by destruct (cbind _ _).
Qed.

Lemma filterEvents_respects : respects filterEvents.
Proof.
  intros w1 w2 H. unfold outcome, exec. rewrite !filterEvents_run.
  same_core w1 w2 H. simpl.
  destruct (Nat.ltb 0 _); [|done]. by destruct (cbind _ _).
Qed.

Lemma filterEras_respects : respects filterEras.
Proof.
  intros w1 w2 H. unfold outcome, exec. rewrite !filterEras_run.
  same_core w1 w2 H. simpl.
  destruct (Nat.ltb 0 _); [|done].
  destruct (get_prop _ _) as [v|]; [|done].
  destruct (truthy v); [|done]. by destruct (cbind _ _).
Qed.

Lemma filterEvents_keeps_selection : keeps_selection filterEvents.
Proof.
  intros w. unfold exec. rewrite filterEvents_run. simpl.
  destruct (Nat.ltb 0 _); [|done]. by destruct (cbind _ _).
Qed.

Lemma filterEras_keeps_selection : keeps_selection filterEras.
Proof.
  intros w. unfold exec. rewrite filterEras_run. simpl.
  destruct (Nat.ltb 0 _); [|done].
  destruct (get_prop _ _) as [v|]; [|done].
  destruct (truthy v); [|done]. by destruct (cbind _ _).
Qed.

Lemma createTimeline_respects : respects createTimeline.
Proof.
  intros w1 w2 H. split.
  - by rewrite !createTimeline_outcome.
  - by rewrite !createTimeline_keeps_core.
Qed.

Lemma updateFilterStatus_respects : respects updateFilterStatus.
Proof.
  intros w1 w2 H. split; [|by rewrite !updateFilterStatus_keeps_core].
  same_core w1 w2 H. unfold updateFilterStatus. run.
  repeat match goal with
         | |- context [match ?c with Normal _ => _ | Throw _ => _ end] =>
             destruct c; simpl; try done
         | |- context [if ?b then _ else _] => destruct b; simpl; try done
         end.
Qed.

Lemma refilter_respects : respects refilter.
Proof.
  unfold refilter, recreateTimeline.
  auto using respects_seq, filterEvents_respects, filterEras_respects,
    createTimeline_respects, updateFilterStatus_respects.
Qed.

Lemma refilter_keeps_selection : keeps_selection refilter.
Proof.
  unfold refilter, recreateTimeline.
  auto using keeps_selection_seq, filterEvents_keeps_selection,
    filterEras_keeps_selection, keeps_core_selection,
    createTimeline_keeps_core, updateFilterStatus_keeps_core.
Qed.

Lemma applyFilters_run w :
  applyFilters w =
  refilter (set_currentData (JSON_copy (originalData (this w))) w).
Proof. reflexivity. Qed.

Lemma applyFilters_keeps_selection : keeps_selection applyFilters.
Proof.
  intros w. unfold exec. rewrite applyFilters_run.
  apply (refilter_keeps_selection (set_currentData _ w)).
Qed.

(** The view [applyFilters] leaves is determined by the stored dataset and
    the selection. *)
Lemma applyFilters_deterministic w1 w2 :
  originalData (this w1) = originalData (this w2) →
  activeGroupFilters (this w1) = activeGroupFilters (this w2) →
  activeEraFilters (this w1) = activeEraFilters (this w2) →
  outcome applyFilters w1 = outcome applyFilters w2
  ∧ currentData (this (exec applyFilters w1))
    = currentData (this (exec applyFilters w2)).
Proof.
  intros Ho Hg He. unfold outcome, exec. rewrite !applyFilters_run.
  destruct (refilter_respects
              (set_currentData (JSON_copy (originalData (this w1))) w1)
              (set_currentData (JSON_copy (originalData (this w2))) w2))
    as [H1 H2].
  - unfold core. simpl. by rewrite Ho, Hg, He.
  - split; [done|]. unfold core, exec in H2. by simplify_eq.
Qed.

Lemma exec_seq_normal {A B} (m : M A) (k : M B) w a :
  outcome m w = Normal a → exec (m ;; k) w = exec k (exec m w).
Proof.
  unfold outcome, exec, bind. destruct (m w) as [[a'|e] w']; simpl; congruence.
Qed.

Lemma outcome_seq {A B} (m : M A) (k : M B) w a :
  outcome m w = Normal a → outcome (m ;; k) w = outcome k (exec m w).
Proof.
  unfold outcome, exec, bind. destruct (m w) as [[a'|e] w']; simpl; congruence.
Qed.

Lemma outcome_seq_throw {A B} (m : M A) (k : M B) w e :
  outcome m w = Throw e →
  outcome (m ;; k) w = Throw e ∧ exec (m ;; k) w = exec m w.
Proof.
  unfold outcome, exec, bind. destruct (m w) as [[a'|e'] w']; simpl; [done|].
  by intros [= ->].
Qed.

Lemma exec_seq_cases {A B} (m : M A) (k : M B) w :
  exec (m ;; k) w = exec m w ∨ exec (m ;; k) w = exec k (exec m w).
Proof.
  unfold exec, bind. destruct (m w) as [[a|e] w']; simpl; auto.
Qed.

(** Rendering and the status line come after the filtering and do not touch
    its result. *)
Lemma refilter_core w :
  core (exec refilter w) = core (exec (filterEvents ;; filterEras) w).
Proof.
  unfold refilter, exec, bind.
  destruct (filterEvents w) as [[[]|e] w1]; simpl; [|done].
  destruct (filterEras w1) as [[[]|e] w2]; simpl; [|done].
  apply (keeps_core_bind recreateTimeline (λ _, updateFilterStatus)).
  - apply createTimeline_keeps_core.
  - intros _. apply updateFilterStatus_keeps_core.
Qed.

Lemma refilter_currentData w :
  currentData (this (exec refilter w))
  = currentData (this (exec (filterEvents ;; filterEras) w)).
Proof. pose proof (refilter_core w) as H. unfold core in H. by simplify_eq. Qed.

(** Each filtering block assigns one property of [currentData] at most. *)
Lemma filterEvents_frame w k :
  k ≠ "events" →
  get_prop (currentData (this (exec filterEvents w))) k
  = get_prop (currentData (this w)) k.
Proof.
  intros Hk. unfold exec. rewrite filterEvents_run. simpl.
  destruct (Nat.ltb 0 _); [|done]. destruct (cbind _ _); [|done].
  simpl. by apply get_prop_set_prop_ne.
Qed.

Lemma filterEras_frame w k :
  k ≠ "eras" →
  get_prop (currentData (this (exec filterEras w))) k
  = get_prop (currentData (this w)) k.
Proof.
  intros Hk. unfold exec. rewrite filterEras_run. simpl.
  destruct (Nat.ltb 0 _); [|done].
  destruct (get_prop _ "eras") as [v|]; [|done].
  destruct (truthy v); [|done]. destruct (cbind _ _); [|done].
  simpl. by apply get_prop_set_prop_ne.
Qed.

Lemma applyFilters_currentData w :
  currentData (this (exec applyFilters w))
  = currentData
      (this (exec (filterEvents ;; filterEras)
               (set_currentData (originalData (this w)) w))).
Proof.
  unfold exec at 1. rewrite applyFilters_run, JSON_copy_id.
  apply refilter_currentData.
Qed.

Lemma size_gset_ltb (s : gset string) :
  Nat.ltb 0 (size s) = negb (bool_decide (s = ∅)).
Proof.
  case_bool_decide as H; simpl.
  - by rewrite H, size_empty.
  - apply Nat.ltb_lt. destruct (size s) eqn:E; [|lia].
    apply size_empty_iff in E. by apply leibniz_equiv in E.
Qed.

(** What the first block leaves in [events]. *)
Lemma filterEvents_events w evs :
  events_in (currentData (this w)) evs →
  let groups := activeGroupFilters (this w) in
  let w' := exec filterEvents w in
  (groups = ∅ ∧ w' = w)
  ∨ (groups ≠ ∅
     ∧ ∃ kept, Array_filter (group_selected groups) evs = Normal kept
               ∧ outcome filterEvents w = Normal tt
               ∧ events_in (currentData (this w')) kept)
  ∨ (groups ≠ ∅
     ∧ Array_filter (group_selected groups) evs = Throw TypeError
     ∧ w' = w).
Proof.
  intros Hev. unfold events_in in Hev. simpl.
  unfold outcome, exec. rewrite filterEvents_run. simpl.
  rewrite size_gset_ltb. case_bool_decide as Hg; simpl; [by left|right].
  rewrite Hev. simpl.
  destruct (Array_filter _ evs) as [kept|[]]; simpl; [left|by right].
  split; [done|]. exists kept. repeat split.
  unfold events_in. by eapply get_prop_set_prop_eq.
Qed.

(** What the second block leaves in [eras]. *)
Lemma filterEras_eras w ers :
  eras_in (currentData (this w)) ers →
  let eras := activeEraFilters (this w) in
  let w' := exec filterEras w in
  (eras = ∅ ∧ w' = w)
  ∨ (eras ≠ ∅
     ∧ ∃ kept, Array_filter (era_selected eras) ers = Normal kept
               ∧ outcome filterEras w = Normal tt
               ∧ eras_in (currentData (this w')) kept)
  ∨ (eras ≠ ∅
     ∧ Array_filter (era_selected eras) ers = Throw TypeError
     ∧ outcome filterEras w = Throw TypeError
     ∧ w' = w).
Proof.
  intros Her. unfold eras_in in Her. simpl.
  unfold outcome, exec. rewrite filterEras_run. simpl.
  rewrite size_gset_ltb. case_bool_decide as Hg; simpl; [by left|right].
  rewrite Her. simpl.
  destruct (Array_filter _ ers) as [kept|[]]; simpl; [left|by right].
  split; [done|]. exists kept. repeat split.
  unfold eras_in. by eapply get_prop_set_prop_eq.
Qed.

Lemma group_in_spec groups event :
  group_in groups event = true ↔ ∃ g, has_group event g ∧ g ∈ groups.
Proof.
  unfold group_in, has_group. split.
  - destruct (get_prop event "group") as [[[]|]|]; try discriminate.
    intros H%bool_decide_eq_true. eauto.
  - intros (g & -> & Hg). by apply bool_decide_eq_true.
Qed.

Lemma group_selected_total groups event :
  event ≠ JNull → group_selected groups event = Normal (group_in groups event).
Proof.
  intros Hne. unfold group_selected, group_in.
  by destruct event.
Qed.

Lemma Array_filter_pure f g l :
  Forall (λ x, f x = Normal (g x)) l →
  Array_filter f l = Normal (List.filter g l).
Proof.
  induction 1 as [|x l Hx _ IH]; simpl; [done|].
  rewrite Hx, IH. simpl. by destruct (g x).
Qed.

Lemma applyFilters_no_selection w :
  activeGroupFilters (this w) = ∅ →
  activeEraFilters (this w) = ∅ →
  currentData (this (exec applyFilters w)) = originalData (this w).
Proof.
  intros Hg He. rewrite applyFilters_currentData. unfold exec, bind.
  rewrite filterEvents_run. simpl. rewrite Hg, size_empty. simpl.
  rewrite filterEras_run. simpl. by rewrite He, size_empty.
Qed.

(** C6: with both active sets empty, [applyFilters] leaves in [currentData]
    the stored dataset itself, so its events and eras (and everything else)
    are those of the dataset, unchanged. *)
Theorem empty_selection_identity w :
  activeGroupFilters (this w) = ∅ →
  activeEraFilters (this w) = ∅ →
  currentData (this (exec applyFilters w)) = originalData (this w)
  ∧ (∀ evs, events_in (originalData (this w)) evs →
            events_in (currentData (this (exec applyFilters w))) evs)
  ∧ (∀ ers, eras_in (originalData (this w)) ers →
            eras_in (currentData (this (exec applyFilters w))) ers).
Proof.
  intros Hg He. rewrite (applyFilters_no_selection w Hg He). auto.
Qed.

(** C9: [applyFilters] assigns only the [events] and [eras] properties of the
    copy: every other property of [currentData] reads as it does in the
    stored dataset. *)
Theorem other_fields_unchanged w k :
  k ≠ "events" → k ≠ "eras" →
  get_prop (currentData (this (exec applyFilters w))) k
  = get_prop (originalData (this w)) k.
Proof.
  intros Hev Her. rewrite applyFilters_currentData.
  destruct (exec_seq_cases filterEvents filterEras
              (set_currentData (originalData (this w)) w)) as [-> | ->].
  - by rewrite filterEvents_frame.
  - by rewrite filterEras_frame, filterEvents_frame.
Qed.

(** C10: the events and the eras [applyFilters] keeps are subsequences of
    those of the stored dataset: records are removed, never reordered. *)
Theorem filtering_preserves_order w :
  (∀ evs, events_in (originalData (this w)) evs →
     ∃ kept, events_in (currentData (this (exec applyFilters w))) kept
             ∧ sublist kept evs)
  ∧ (∀ ers, eras_in (originalData (this w)) ers →
       ∃ kept, eras_in (currentData (this (exec applyFilters w))) kept
               ∧ sublist kept ers).
Proof.
  rewrite applyFilters_currentData.
  set (w0 := set_currentData (originalData (this w)) w).
  split.
  - intros evs Hev.
    assert (∃ kept, events_in (currentData (this (exec filterEvents w0))) kept
                    ∧ sublist kept evs) as (kept & Hk & Hsub).
    { destruct (filterEvents_events w0 evs Hev)
        as [[_ ->] | [(_ & kept & Hf & _ & Hk) | (_ & _ & ->)]]; eauto.
      eauto using Array_filter_sublist. }
    exists kept. split; [|done].
    destruct (exec_seq_cases filterEvents filterEras w0) as [-> | ->];
      [done|].
    unfold events_in. by rewrite filterEras_frame.
  - intros ers Her.
    assert (eras_in (currentData (this (exec filterEvents w0))) ers) as Her1.
    { unfold eras_in. by rewrite filterEvents_frame. }
    destruct (exec_seq_cases filterEvents filterEras w0) as [-> | ->];
      [by eauto|].
    destruct (filterEras_eras _ ers Her1)
      as [[_ ->] | [(_ & kept & Hf & _ & Hk) | (_ & _ & _ & ->)]]; eauto.
    eauto using Array_filter_sublist.
Qed.

(** C3: with no active group label [applyFilters] keeps every event; with
    some, it keeps exactly the events whose [group] is an active label, in
    place: every kept event has its group in the set, and an event without a
    group, or with one outside the set, is dropped. *)
Theorem events_filtered_by_group w evs :
  events_in (originalData (this w)) evs →
  Forall (λ event, event ≠ JNull) evs →
  let groups := activeGroupFilters (this w) in
  ∃ kept,
    events_in (currentData (this (exec applyFilters w))) kept
    ∧ (groups = ∅ → kept = evs)
    ∧ (groups ≠ ∅ →
       kept = List.filter (group_in groups) evs
       ∧ ∀ event, event ∈ kept ↔
                  event ∈ evs ∧ ∃ g, has_group event g ∧ g ∈ groups).
Proof.
  intros Hev Hnn groups. rewrite applyFilters_currentData.
  set (w0 := set_currentData (originalData (this w)) w).
  assert (Array_filter (group_selected groups) evs
          = Normal (List.filter (group_in groups) evs)) as Hfilter.
  { apply Array_filter_pure. eapply Forall_impl; [exact Hnn|].
    intros e He. by apply group_selected_total. }
  assert (∃ kept,
            events_in (currentData (this (exec filterEvents w0))) kept
            ∧ outcome filterEvents w0 = Normal tt
            ∧ (groups = ∅ → kept = evs)
            ∧ (groups ≠ ∅ → kept = List.filter (group_in groups) evs))
    as (kept & Hk & Hout & Hempty & Hsome).
  { destruct (filterEvents_events w0 evs Hev)
      as [[Hg Hw] | [(Hg & kept & Hf & Hout & Hk) | (_ & Hf & _)]].
    - exists evs. rewrite Hw. repeat split; try done.
      unfold outcome. rewrite filterEvents_run. simpl in *.
      fold groups in Hg |- *. by rewrite Hg, size_empty.
    - exists kept. repeat split; try done.
      simpl in Hf. fold groups in Hf. congruence.
    - simpl in Hf. fold groups in Hf. congruence. }
  exists kept. split; [|split; [done|]].
  - rewrite (exec_seq_normal _ _ _ _ Hout).
    unfold events_in. by rewrite filterEras_frame.
  - intros Hg. split; [by apply Hsome|].
    intros event. rewrite (Hsome Hg), <- group_in_spec.
    rewrite !list_elem_of_In, filter_In. tauto.
Qed.

(** ** Sessions *)

(** Every action sets the selection and ends in [applyFilters]. *)
Lemma toggleGroupFilter_run group button w :
  ∃ w1, toggleGroupFilter group button w = applyFilters w1
        ∧ originalData (this w1) = originalData (this w)
        ∧ activeEraFilters (this w1) = activeEraFilters (this w)
        ∧ activeGroupFilters (this w1)
          = (if bool_decide (group ∈ activeGroupFilters (this w))
             then activeGroupFilters (this w) ∖ {[group]}
             else activeGroupFilters (this w) ∪ {[group]}).
Proof.
  unfold toggleGroupFilter. run.
  case_bool_decide; simpl; eexists; (split; [reflexivity|done]).
Qed.

Lemma toggleEraFilter_run era button w :
  ∃ w1, toggleEraFilter era button w = applyFilters w1
        ∧ originalData (this w1) = originalData (this w)
        ∧ activeGroupFilters (this w1) = activeGroupFilters (this w)
        ∧ activeEraFilters (this w1)
          = (if bool_decide (era ∈ activeEraFilters (this w))
             then activeEraFilters (this w) ∖ {[era]}
             else activeEraFilters (this w) ∪ {[era]}).
Proof.
  unfold toggleEraFilter. run.
  case_bool_decide; simpl; eexists; (split; [reflexivity|done]).
Qed.

Lemma clearGroupFilters_run w :
  ∃ w1, clearGroupFilters w = applyFilters w1
        ∧ originalData (this w1) = originalData (this w)
        ∧ activeEraFilters (this w1) = activeEraFilters (this w)
        ∧ activeGroupFilters (this w1) = ∅.
Proof. unfold clearGroupFilters. run. eexists. split; [reflexivity|done]. Qed.

Lemma clearEraFilters_run w :
  ∃ w1, clearEraFilters w = applyFilters w1
        ∧ originalData (this w1) = originalData (this w)
        ∧ activeGroupFilters (this w1) = activeGroupFilters (this w)
        ∧ activeEraFilters (this w1) = ∅.
Proof. unfold clearEraFilters. run. eexists. split; [reflexivity|done]. Qed.

Lemma perform_run a w :
  ∃ w1, perform a w = applyFilters w1
        ∧ originalData (this w1) = originalData (this w).
Proof.
  destruct a as [g b|e b| |]; simpl.
  - destruct (toggleGroupFilter_run g b w) as (w1 & ? & ? & _). eauto.
  - destruct (toggleEraFilter_run e b w) as (w1 & ? & ? & _). eauto.
  - destruct (clearGroupFilters_run w) as (w1 & ? & ? & _). eauto.
  - destruct (clearEraFilters_run w) as (w1 & ? & ? & _). eauto.
Qed.

Lemma applyFilters_settled w : settled (exec applyFilters w).
Proof.
  unfold settled. symmetry.
  destruct (applyFilters_keeps_selection w) as (Ho & Hg & He).
  by apply applyFilters_deterministic.
Qed.

Lemma perform_settled a w :
  settled (exec (perform a) w)
  ∧ originalData (this (exec (perform a) w)) = originalData (this w).
Proof.
  destruct (perform_run a w) as (w1 & Hrun & Ho).
  assert (exec (perform a) w = exec applyFilters w1)
    as -> by exact (f_equal snd Hrun).
  split.
  - apply applyFilters_settled.
  - rewrite <- Ho. apply applyFilters_keeps_selection.
Qed.

Lemma constructor_core D doc t d :
  constructor D doc = (Normal t, d) →
  core {| this := t; document := d |} = (D, D, ∅, ∅).
Proof.
  unfold constructor. intros H.
  match type of H with
  | context [init ?w0] =>
      pose proof (init_keeps_core w0) as Hc; unfold exec in Hc;
      destruct (init w0) as [[[]|e] w']
  end; [|discriminate].
  injection H as <- <-. unfold core in *. simpl in *.
  by rewrite !JSON_copy_id in Hc.
Qed.

Lemma constructor_settled D doc t d :
  constructor D doc = (Normal t, d) →
  settled {| this := t; document := d |}.
Proof.
  intros H%constructor_core. unfold core, settled in *.
  injection H as Ho Hc Hg He.
  rewrite (applyFilters_no_selection {| this := t; document := d |} Hg He).
  simpl. congruence.
Qed.

Lemma session_settled actions w :
  settled w →
  settled (session actions w)
  ∧ originalData (this (session actions w)) = originalData (this w).
Proof.
  revert w. induction actions as [|a actions IH]; intros w Hw; simpl; [done|].
  destruct (perform_settled a w) as [Hs Ho].
  destruct (IH _ Hs) as [Hs' Ho']. split; [done|congruence].
Qed.

(** C4: after construction and any sequence of toggles and clears, the
    stored dataset is the one the instance was built from, and the view held
    is what [applyFilters] computes from that dataset and the current
    selection, whatever view (or widget, or page) it starts from. *)
Theorem view_is_function_of_dataset_and_selection D doc t d actions :
  constructor D doc = (Normal t, d) →
  let w := session actions {| this := t; document := d |} in
  originalData (this w) = D
  ∧ ∀ w', originalData (this w') = D →
          activeGroupFilters (this w') = activeGroupFilters (this w) →
          activeEraFilters (this w') = activeEraFilters (this w) →
          currentData (this (exec applyFilters w')) = currentData (this w).
Proof.
  intros Hnew w.
  destruct (session_settled actions _ (constructor_settled _ _ _ _ Hnew))
    as [Hs Ho].
  apply constructor_core in Hnew. unfold core in Hnew. simpl in *.
  assert (originalData (this w) = D) as HD by (subst w; congruence).
  split; [done|]. intros w' Ho' Hg' He'.
  unfold settled in Hs. fold w in Hs.
  rewrite Hs. apply applyFilters_deterministic; congruence.
Qed.

Lemma toggle_twice_set (s : gset string) (x : string) :
  (if bool_decide
        (x ∈ (if bool_decide (x ∈ s) then s ∖ {[x]} else s ∪ {[x]}))
   then (if bool_decide (x ∈ s) then s ∖ {[x]} else s ∪ {[x]}) ∖ {[x]}
   else (if bool_decide (x ∈ s) then s ∖ {[x]} else s ∪ {[x]}) ∪ {[x]})
  = s.
Proof.
  destruct (decide (x ∈ s)) as [Hx|Hx].
  - rewrite (bool_decide_eq_true_2 _ Hx).
    rewrite bool_decide_eq_false_2 by set_solver.
    apply set_eq. intros y. destruct (decide (y = x)); set_solver.
  - rewrite (bool_decide_eq_false_2 _ Hx).
    rewrite bool_decide_eq_true_2 by set_solver. set_solver.
Qed.

(** C7: on a constructed instance, after any actions, toggling a group label
    twice (or an era label twice) brings the active set back to what it was,
    and the view after the two toggles is the view before them. *)
Theorem toggle_twice_restores D doc t d actions label button :
  constructor D doc = (Normal t, d) →
  let w := session actions {| this := t; document := d |} in
  let twice (toggle : M unit) := exec toggle (exec toggle w) in
  (activeGroupFilters (this (twice (toggleGroupFilter label button)))
   = activeGroupFilters (this w)
   ∧ currentData (this (twice (toggleGroupFilter label button)))
     = currentData (this w))
  ∧ (activeEraFilters (this (twice (toggleEraFilter label button)))
     = activeEraFilters (this w)
     ∧ currentData (this (twice (toggleEraFilter label button)))
       = currentData (this w)).
Proof.
  intros Hnew w twice.
  destruct (session_settled actions _ (constructor_settled _ _ _ _ Hnew))
    as [Hs _].
  fold w in Hs. unfold settled in Hs. subst twice. cbv beta. split.
  - destruct (toggleGroupFilter_run label button w)
      as (w1 & Hrun1 & Ho1 & He1 & Hg1).
    assert (exec (toggleGroupFilter label button) w = exec applyFilters w1)
      as -> by exact (f_equal snd Hrun1).
    destruct (applyFilters_keeps_selection w1) as (Ho1' & Hg1' & He1').
    destruct (toggleGroupFilter_run label button (exec applyFilters w1))
      as (w2 & Hrun2 & Ho2 & He2 & Hg2).
    assert (exec (toggleGroupFilter label button) (exec applyFilters w1)
            = exec applyFilters w2) as -> by exact (f_equal snd Hrun2).
    destruct (applyFilters_keeps_selection w2) as (Ho2' & Hg2' & He2').
    assert (activeGroupFilters (this w2) = activeGroupFilters (this w)) as Hg.
    { rewrite Hg2, Hg1', Hg1. apply toggle_twice_set. }
    split; [congruence|].
    rewrite Hs. apply applyFilters_deterministic; congruence.
  - destruct (toggleEraFilter_run label button w)
      as (w1 & Hrun1 & Ho1 & Hg1 & He1).
    assert (exec (toggleEraFilter label button) w = exec applyFilters w1)
      as -> by exact (f_equal snd Hrun1).
    destruct (applyFilters_keeps_selection w1) as (Ho1' & Hg1' & He1').
    destruct (toggleEraFilter_run label button (exec applyFilters w1))
      as (w2 & Hrun2 & Ho2 & Hg2 & He2).
    assert (exec (toggleEraFilter label button) (exec applyFilters w1)
            = exec applyFilters w2) as -> by exact (f_equal snd Hrun2).
    destruct (applyFilters_keeps_selection w2) as (Ho2' & Hg2' & He2').
    assert (activeEraFilters (this w2) = activeEraFilters (this w)) as He.
    { rewrite He2, He1', He1. apply toggle_twice_set. }
    split; [congruence|].
    rewrite Hs. apply applyFilters_deterministic; congruence.
Qed.

(** ** The status line *)

Lemma eras_length_count data l :
  eras_or_none data l →
  eras_length data = Normal (Some (JNum (decimal (length l)))).
Proof.
  unfold eras_length. intros [H | [H ->]]; unfold eras_in in *; by rewrite H.
Qed.

Lemma size_gset_eqb (s : gset string) :
  Nat.eqb (size s) 0 = bool_decide (s = ∅).
Proof.
  pose proof (size_gset_ltb s) as H. destruct (bool_decide (s = ∅)).
  - apply Nat.ltb_ge in H. apply Nat.eqb_eq. lia.
  - apply Nat.ltb_lt in H. apply Nat.eqb_neq. lia.
Qed.

Lemma updateFilterStatus_run w total_events shown_events total_eras shown_eras :
  events_in (originalData (this w)) total_events →
  events_in (currentData (this w)) shown_events →
  eras_or_none (originalData (this w)) total_eras →
  eras_or_none (currentData (this w)) shown_eras →
  updateFilterStatus w
  = (Normal tt,
     {| this := this w;
        document :=
          with_filter_status
            (status_line (activeGroupFilters (this w))
               (activeEraFilters (this w))
               total_events shown_events total_eras shown_eras)
            (document w) |}).
Proof.
  intros Hte Hse Htr Hsr. unfold events_in in *.
  apply eras_length_count in Htr, Hsr.
  unfold updateFilterStatus, status_line. run.
  rewrite Hte, Hse, Htr, Hsr. simpl.
  rewrite !size_gset_eqb, !size_gset_ltb.
  destruct (bool_decide (activeGroupFilters (this w) = ∅)),
    (bool_decide (activeEraFilters (this w) = ∅)); reflexivity.
Qed.

(** C8: [updateFilterStatus] writes "Showing all events" when both active
    sets are empty; otherwise "Showing " and the parts joined by ", ", the
    part "<shown>/<total> events" being there exactly when the group set is
    not empty and the part "<shown>/<total> eras" exactly when the era set
    is not empty, the counts being the lengths of the sequences of the view
    and of the stored dataset.  Nothing else is written. *)
Theorem status_text w total_events shown_events total_eras shown_eras :
  events_in (originalData (this w)) total_events →
  events_in (currentData (this w)) shown_events →
  eras_or_none (originalData (this w)) total_eras →
  eras_or_none (currentData (this w)) shown_eras →
  let no_group := bool_decide (activeGroupFilters (this w) = ∅) in
  let no_era := bool_decide (activeEraFilters (this w) = ∅) in
  let text :=
    if no_group && no_era then "Showing all events"
    else "Showing " +:+
         String.concat ", "
           ((if no_group then []
             else [decimal (length shown_events) +:+ "/" +:+
                   decimal (length total_events) +:+ " events"])
            ++ (if no_era then []
                else [decimal (length shown_eras) +:+ "/" +:+
                      decimal (length total_eras) +:+ " eras"])) in
  updateFilterStatus w
  = (Normal tt,
     {| this := this w;
        document := with_filter_status text (document w) |}).
Proof.
  intros Hte Hse Htr Hsr.
  exact (updateFilterStatus_run w _ _ _ _ Hte Hse Htr Hsr).
Qed.

(** ** The vocabularies *)

Lemma str_lt_trans a b c : str_lt a b → str_lt b c → str_lt a c.
Proof.
  unfold str_lt. intros H1 H2.
  apply String_as_OT.cmp_lt in H1, H2. apply String_as_OT.cmp_lt.
  eapply String_as_OT.lt_trans; eauto.
Qed.

Lemma str_lt_irrefl a : ¬ str_lt a a.
Proof.
  unfold str_lt. intros H.
  assert (String.compare a a = Eq) by by apply String_as_OT.cmp_eq.
  congruence.
Qed.

Lemma str_le_lt_eq a b : str_le a b ↔ str_lt a b ∨ a = b.
Proof.
  unfold str_le, str_lt. split.
  - destruct (String.compare a b) eqn:E; try tauto.
    apply String.compare_eq_iff in E. auto.
  - intros [-> | ->]; [done|].
    assert (String.compare b b = Eq) as -> by by apply String_as_OT.cmp_eq.
    done.
Qed.

Lemma str_le_trans a b c : str_le a b → str_le b c → str_le a c.
Proof.
  rewrite !str_le_lt_eq. intros [H1 | ->] [H2 | ->]; eauto using str_lt_trans.
Qed.

Lemma str_gt_le a b : String.compare a b = Gt → str_le b a.
Proof.
  intros H. apply str_le_lt_eq. left. unfold str_lt.
  rewrite String.compare_antisym, H. done.
Qed.

Lemma existsb_SameValueZero_str s ls :
  existsb (SameValueZero (JStr s)) (List.map JStr ls) = bool_decide (s ∈ ls).
Proof.
  induction ls as [|x ls IH]; simpl; [done|].
  rewrite IH. destruct (String.eqb s x) eqn:E; simpl.
  - apply String.eqb_eq in E as ->. symmetry.
    apply bool_decide_eq_true. left.
  - apply String.eqb_neq in E.
    apply bool_decide_ext. rewrite elem_of_cons. naive_solver.
Qed.

Lemma add_if_truthy_strings ls v :
  string_or_absent v → NoDup ls →
  ∃ ls1, add_if_truthy (List.map JStr ls) v = List.map JStr ls1
         ∧ NoDup ls1
         ∧ ∀ s, s ∈ ls1 ↔ s ∈ ls ∨ (s ≠ "" ∧ v = Some (JStr s)).
Proof.
  intros [-> | [s ->]] Hnd; simpl.
  - exists ls. naive_solver.
  - destruct (String.eqb s "") eqn:E; simpl.
    + apply String.eqb_eq in E as ->. exists ls. naive_solver.
    + apply String.eqb_neq in E. unfold Set_add.
      rewrite existsb_SameValueZero_str. case_bool_decide as Hin.
      * exists ls. naive_solver.
      * exists (ls ++ [s]). split; [by rewrite List.map_app|]. split.
        -- apply NoDup_app. split; [done|]. split; [|apply NoDup_singleton].
           intros x Hx ->%list_elem_of_singleton. done.
        -- intros x. rewrite elem_of_app, list_elem_of_singleton.
           naive_solver.
Qed.

Lemma collect_labels f (label : json → value) l :
  Forall (λ x, string_or_absent (label x)
               ∧ ∀ set, f set x = Normal (add_if_truthy set (label x))) l →
  ∀ ls, NoDup ls →
  ∃ ls', forEach_local f l (List.map JStr ls) = Normal (List.map JStr ls')
         ∧ NoDup ls'
         ∧ ∀ s, s ∈ ls' ↔
                s ∈ ls ∨ (s ≠ "" ∧ ∃ x, x ∈ l ∧ label x = Some (JStr s)).
Proof.
  induction 1 as [|x l [Hx Hf] _ IH]; intros ls Hnd; simpl.
  - exists ls. set_solver.
  - rewrite Hf. simpl.
    destruct (add_if_truthy_strings ls (label x) Hx Hnd)
      as (ls1 & -> & Hnd1 & Hin1).
    destruct (IH ls1 Hnd1) as (ls' & -> & Hnd' & Hin').
    exists ls'. split; [done|]. split; [done|].
    intros s. rewrite Hin', Hin1. set_solver.
Qed.

Lemma sort_insert_strings x l :
  StronglySorted str_le l →
  ∃ l', sort_insert (JStr x) (List.map JStr l) = Normal (List.map JStr l')
        ∧ l' ≡ₚ x :: l
        ∧ StronglySorted str_le l'.
Proof.
  induction 1 as [|y l Hl IH Hy]; simpl.
  - exists [x]. split; [done|]. split; [done|]. repeat constructor.
  - assert (str_le x y → StronglySorted str_le (x :: y :: l)) as Hhead.
    { intros Hxy. constructor; [by constructor|].
      constructor; [done|].
      eapply Forall_impl; [exact Hy|]. eauto using str_le_trans. }
    destruct (String.compare x y) eqn:E.
    + exists (x :: y :: l). split; [done|]. split; [done|].
      apply Hhead. unfold str_le. congruence.
    + exists (x :: y :: l). split; [done|]. split; [done|].
      apply Hhead. unfold str_le. congruence.
    + destruct IH as (l' & -> & Hp & Hs). simpl.
      exists (y :: l'). split; [done|]. split.
      * rewrite Hp. apply Permutation_swap.
      * constructor; [done|]. rewrite Hp. constructor; [|done].
        by apply str_gt_le.
Qed.

Lemma sort_strings l :
  ∃ l', sort (List.map JStr l) = Normal (List.map JStr l')
        ∧ l' ≡ₚ l
        ∧ StronglySorted str_le l'.
Proof.
  induction l as [|x l (l1 & Hs & Hp & Hsorted)]; simpl.
  - exists []. repeat split; [done|constructor].
  - rewrite Hs. simpl.
    destruct (sort_insert_strings x l1 Hsorted) as (l' & -> & Hp' & Hs').
    exists l'. split; [done|]. split; [|done]. by rewrite Hp', Hp.
Qed.

Lemma StronglySorted_le_lt l :
  NoDup l → StronglySorted str_le l → StronglySorted str_lt l.
Proof.
  intros Hnd. induction 1 as [|x l Hl IH Hx]; [constructor|].
  apply NoDup_cons in Hnd as [Hnotin Hnd].
  constructor; [by apply IH|].
  apply Forall_forall. intros y Hy.
  rewrite Forall_forall in Hx.
  destruct (proj1 (str_le_lt_eq x y) (Hx y Hy)) as [?| ->]; done.
Qed.

Lemma StronglySorted_lt_NoDup l : StronglySorted str_lt l → NoDup l.
Proof.
  induction 1 as [|x l Hl IH Hx]; constructor; [|done].
  intros Hin. rewrite Forall_forall in Hx.
  by apply (str_lt_irrefl x), Hx.
Qed.



(** The loop, then the sort, on records with string labels. *)
Lemma vocabulary_of f (label : json → value) l :
  Forall (λ x, string_or_absent (label x)
               ∧ ∀ set, f set x = Normal (add_if_truthy set (label x))) l →
  ∃ labels,
    (set ⇐ forEach_local f l [] ;; sort set) = Normal (List.map JStr labels)
    ∧ StronglySorted str_lt labels
    ∧ ∀ s, s ∈ labels ↔ s ≠ "" ∧ ∃ x, x ∈ l ∧ label x = Some (JStr s).
Proof.
  intros Hl.
  destruct (collect_labels f label l Hl [] (NoDup_nil_2))
    as (ls & Hrun & Hnd & Hin).
  simpl in Hrun. rewrite Hrun. simpl.
  destruct (sort_strings ls) as (labels & -> & Hp & Hs).
  exists labels. split; [done|]. split.
  - apply StronglySorted_le_lt; [by rewrite Hp|done].
  - intros s. rewrite Hp, Hin. set_solver.
Qed.


Lemma headline_value_spec era s :
  headline_value era = Some (JStr s) ↔ has_headline era s.
Proof.
  unfold headline_value, has_headline. split.
  - destruct (get_prop era "text") as [[text|]|]; try discriminate.
    destruct (truthy (Some text)); [|discriminate]. simpl.
    destruct (get_prop text "headline") as [h|] eqn:Hh; [|discriminate].
    intros ->. eauto.
  - intros (text & -> & Hh).
    assert (truthy (Some text) = true) as ->
      by (destruct text; simpl in *; try done; discriminate).
    simpl. by rewrite Hh.
Qed.

Lemma getUniqueGroups_vocabulary t evs :
  events_in (originalData t) evs → Forall event_wf evs →
  ∃ labels,
    getUniqueGroups t = Normal (List.map JStr labels)
    ∧ is_vocabulary labels (λ s, ∃ event, event ∈ evs ∧ has_group event s).
Proof.
  intros Hev Hwf. unfold getUniqueGroups, events_in in *. rewrite Hev. simpl.
  set (label := λ event,
         match get_prop event "group" with Normal g => g | Throw _ => None end).
  edestruct (vocabulary_of
               (λ groups event,
                  g ⇐ get_prop event "group" ;;
                  Normal (add_if_truthy groups g)) label evs)
    as (labels & Hrun & Hs & Hin).
  { eapply Forall_impl; [exact Hwf|]. intros e (g & Hg & Hsa).
    unfold label. rewrite Hg. done. }
  exists labels. split; [exact Hrun|].
  split; [done|]. split; [by apply StronglySorted_lt_NoDup|].
  intros s. rewrite Hin. unfold label, has_group.
  split; intros [Hne (e & He & Hl)]; (split; [done|]); exists e;
    (split; [done|]).
  - by destruct (get_prop e "group") as [g|]; simplify_eq.
  - by rewrite Hl.
Qed.

Lemma era_callback_wf era :
  era_wf era →
  string_or_absent (headline_value era)
  ∧ ∀ set,
      (text ⇐ get_prop era "text" ;;
       if truthy text then
         headline ⇐ get text "headline" ;;
         Normal (add_if_truthy set headline)
       else Normal set)
      = Normal (add_if_truthy set (headline_value era)).
Proof.
  intros (text & Htext & Hh). unfold headline_value. rewrite Htext. simpl.
  destruct (truthy text) eqn:Ht; [|split; [by left|done]].
  destruct (get text "headline") as [h|] eqn:Hg.
  - split; [by apply Hh|done].
  - destruct text as [[]|]; simpl in *; discriminate.
Qed.

Lemma getUniqueEras_vocabulary t ers :
  eras_in (originalData t) ers → Forall era_wf ers →
  ∃ labels,
    getUniqueEras t = Normal (List.map JStr labels)
    ∧ is_vocabulary labels (λ s, ∃ era, era ∈ ers ∧ has_headline era s).
Proof.
  intros Her Hwf. unfold getUniqueEras, eras_in in *. rewrite Her. simpl.
  edestruct (vocabulary_of
               (λ eras era,
                  text ⇐ get_prop era "text" ;;
                  if truthy text then
                    headline ⇐ get text "headline" ;;
                    Normal (add_if_truthy eras headline)
                  else Normal eras) headline_value ers)
    as (labels & Hrun & Hs & Hin).
  { eapply Forall_impl; [exact Hwf|]. apply era_callback_wf. }
  exists labels. split; [exact Hrun|].
  split; [done|]. split; [by apply StronglySorted_lt_NoDup|].
  intros s. rewrite Hin. by setoid_rewrite headline_value_spec.
Qed.


(** ** Filtering eras *)

Lemma headline_in_spec eras era :
  headline_in eras era = true ↔ ∃ h, has_headline era h ∧ h ∈ eras.
Proof.
  unfold headline_in, has_headline. split.
  - destruct (get_prop era "text") as [[text|]|]; try discriminate.
    destruct (get_prop text "headline") as [[[]|]|] eqn:Hh;
      try discriminate.
    intros H%bool_decide_eq_true. eauto 6.
  - intros (h & (text & -> & ->) & Hh). by apply bool_decide_eq_true.
Qed.

Lemma era_selected_total eras era :
  era_has_text era → era_selected eras era = Normal (headline_in eras era).
Proof.
  intros (text & Ht & Hne). unfold era_selected, headline_in.
  rewrite Ht. simpl. by destruct text.
Qed.

(** This is the fault of [applyFilters]: its callback reads
    [era.text.headline] without the guard [getUniqueEras] has. *)
Lemma era_selected_no_text eras era :
  get_prop era "text" = Normal None → era_selected eras era = Throw TypeError.
Proof. intros H. unfold era_selected. by rewrite H. Qed.

Lemma filterEvents_normal w evs :
  events_in (currentData (this w)) evs →
  Forall (λ event, event ≠ JNull) evs →
  outcome filterEvents w = Normal tt
  ∧ events_in (currentData (this (exec filterEvents w)))
      (if bool_decide (activeGroupFilters (this w) = ∅) then evs
       else List.filter (group_in (activeGroupFilters (this w))) evs).
Proof.
  intros Hev Hnn.
  assert (Array_filter (group_selected (activeGroupFilters (this w))) evs
          = Normal (List.filter (group_in (activeGroupFilters (this w))) evs))
    as Hfilter.
  { apply Array_filter_pure. eapply Forall_impl; [exact Hnn|].
    intros e He. by apply group_selected_total. }
  destruct (filterEvents_events w evs Hev)
    as [[Hg Hw] | [(Hg & kept & Hf & Hout & Hk) | (_ & Hf & _)]];
    simpl in *.
  - rewrite Hw, bool_decide_eq_true_2 by done. split; [|done].
    unfold outcome. rewrite filterEvents_run. simpl.
    by rewrite Hg, size_empty.
  - rewrite bool_decide_eq_false_2 by done. split; [done|]. congruence.
  - congruence.
Qed.

Lemma filterEras_normal w ers :
  eras_in (currentData (this w)) ers →
  Forall era_has_text ers →
  outcome filterEras w = Normal tt
  ∧ eras_in (currentData (this (exec filterEras w)))
      (if bool_decide (activeEraFilters (this w) = ∅) then ers
       else List.filter (headline_in (activeEraFilters (this w))) ers).
Proof.
  intros Her Hwf.
  assert (Array_filter (era_selected (activeEraFilters (this w))) ers
          = Normal (List.filter (headline_in (activeEraFilters (this w))) ers))
    as Hfilter.
  { apply Array_filter_pure. eapply Forall_impl; [exact Hwf|].
    intros e He. by apply era_selected_total. }
  destruct (filterEras_eras w ers Her)
    as [[Hg Hw] | [(Hg & kept & Hf & Hout & Hk) | (_ & Hf & _)]];
    simpl in *.
  - rewrite Hw, bool_decide_eq_true_2 by done. split; [|done].
    unfold outcome. rewrite filterEras_run. simpl.
    by rewrite Hg, size_empty.
  - rewrite bool_decide_eq_false_2 by done. split; [done|]. congruence.
  - congruence.
Qed.

Lemma filterEras_none w :
  get_prop (currentData (this w)) "eras" = Normal None →
  filterEras w = (Normal tt, w).
Proof.
  intros H. rewrite filterEras_run. simpl. rewrite H. simpl.
  by destruct (Nat.ltb 0 _).
Qed.

(** The fault in general: once an era label is active, [applyFilters]
    throws on a dataset with an era without [text], and leaves the eras of
    the view unfiltered. *)
Lemma applyFilters_faults w evs ers era :
  events_in (originalData (this w)) evs →
  Forall (λ event, event ≠ JNull) evs →
  eras_in (originalData (this w)) ers →
  era ∈ ers → get_prop era "text" = Normal None →
  activeEraFilters (this w) ≠ ∅ →
  outcome applyFilters w = Throw TypeError
  ∧ eras_in (currentData (this (exec applyFilters w))) ers.
Proof.
  intros Hev Hnn Her Hin Htext Hne.
  unfold outcome, exec. rewrite applyFilters_run, JSON_copy_id.
  set (w0 := set_currentData (originalData (this w)) w).
  fold (outcome refilter w0) (exec refilter w0). unfold refilter.
  destruct (filterEvents_normal w0 evs Hev Hnn) as [Hout _].
  rewrite (outcome_seq _ _ _ _ Hout), (exec_seq_normal _ _ _ _ Hout).
  set (w1 := exec filterEvents w0).
  assert (eras_in (currentData (this w1)) ers) as Her1.
  { unfold eras_in, w1. by rewrite filterEvents_frame. }
  destruct (filterEvents_keeps_selection w0) as (_ & _ & He).
  fold w1 in He. simpl in He.
  pose proof (Array_filter_throw (era_selected (activeEraFilters (this w1)))
                ers era Hin (era_selected_no_text _ _ Htext)) as Hthrow.
  destruct (filterEras_eras w1 ers Her1)
    as [[Hg _] | [(_ & kept & Hf & _) | (_ & _ & Hout2 & Hw)]];
    simpl in *; [congruence|congruence|].
  destruct (outcome_seq_throw filterEras
              (recreateTimeline ;; updateFilterStatus) w1 _ Hout2)
    as [-> ->].
  split; [done|]. by rewrite Hw.
Qed.

(** X6: where every era has a [text], the eras are filtered by headline:
    with no active era label every era is kept, with some, exactly the eras
    whose headline is an active label. *)
Lemma eras_filtered_by_headline w evs ers :
  events_in (originalData (this w)) evs →
  Forall (λ event, event ≠ JNull) evs →
  eras_in (originalData (this w)) ers →
  Forall era_has_text ers →
  let eras := activeEraFilters (this w) in
  ∃ kept,
    eras_in (currentData (this (exec applyFilters w))) kept
    ∧ (eras = ∅ → kept = ers)
    ∧ (eras ≠ ∅ →
       kept = List.filter (headline_in eras) ers
       ∧ ∀ era, era ∈ kept ↔
                era ∈ ers ∧ ∃ h, has_headline era h ∧ h ∈ eras).
Proof.
  intros Hev Hnn Her Hwf eras. rewrite applyFilters_currentData.
  set (w0 := set_currentData (originalData (this w)) w).
  destruct (filterEvents_normal w0 evs Hev Hnn) as [Hout _].
  rewrite (exec_seq_normal _ _ _ _ Hout).
  assert (eras_in (currentData (this (exec filterEvents w0))) ers) as Her1.
  { unfold eras_in. by rewrite filterEvents_frame. }
  destruct (filterEras_normal _ ers Her1 Hwf) as [_ Hkept].
  destruct (filterEvents_keeps_selection w0) as (_ & _ & He).
  rewrite He in Hkept. simpl in Hkept. fold eras in Hkept.
  eexists. split; [exact Hkept|]. split.
  - intros Hg. by rewrite bool_decide_eq_true_2.
  - intros Hg. rewrite bool_decide_eq_false_2 by done. split; [done|].
    intros era. rewrite <- headline_in_spec.
    rewrite !list_elem_of_In, filter_In. tauto.
Qed.

(** ** Totality on datasets whose eras all have a text *)

Lemma forEach_normal {A} (l : list A) (f : A → M unit) :
  (∀ x, x ∈ l → ∀ w, outcome (f x) w = Normal tt) →
  ∀ w, outcome (forEach l f) w = Normal tt.
Proof.
  induction l as [|x l IH]; intros Hf w; simpl; [done|].
  rewrite (outcome_seq _ _ _ tt) by (apply Hf; left).
  apply IH. intros y Hy. apply Hf. by right.
Qed.

Lemma label_buttons_normal append labels w :
  outcome (forEach (List.map JStr labels) (add_label_button append)) w
  = Normal tt.
Proof.
  apply forEach_normal. intros x [s [-> _]]%list_elem_of_fmap w'.
  unfold add_label_button. by destruct (truthy _).
Qed.

Lemma generateGroupButtons_normal w labels :
  getUniqueGroups (this w) = Normal (List.map JStr labels) →
  outcome generateGroupButtons w = Normal tt.
Proof.
  intros H. unfold generateGroupButtons, outcome, bind, read, lift. simpl.
  rewrite H. apply label_buttons_normal.
Qed.

Lemma generateEraButtons_normal w labels :
  getUniqueEras (this w) = Normal (List.map JStr labels) →
  outcome generateEraButtons w = Normal tt.
Proof.
  intros H. unfold generateEraButtons, outcome, bind, read, lift. simpl.
  rewrite H. apply label_buttons_normal.
Qed.

Lemma event_wf_nonnull evs :
  Forall event_wf evs → Forall (λ event, event ≠ JNull) evs.
Proof.
  intros H. eapply Forall_impl; [exact H|].
  intros e (g & Hg & _) ->. discriminate.
Qed.

Lemma getUniqueEras_total t :
  dataset_wf (originalData t) →
  ∃ labels, getUniqueEras t = Normal (List.map JStr labels).
Proof.
  intros [_ [Hnone | (ers & Her & Hwf)]].
  - exists []. unfold getUniqueEras. by rewrite Hnone.
  - destruct (getUniqueEras_vocabulary t ers Her Hwf) as (labels & H & _).
    eauto.
Qed.

Lemma eras_or_none_wf data :
  dataset_wf data → ∃ ers, eras_or_none data ers.
Proof.
  intros [_ [Hnone | (ers & Her & _)]].
  - exists []. by right.
  - exists ers. by left.
Qed.

Lemma core_fields w1 w2 :
  core w1 = core w2 →
  originalData (this w1) = originalData (this w2)
  ∧ currentData (this w1) = currentData (this w2)
  ∧ activeGroupFilters (this w1) = activeGroupFilters (this w2)
  ∧ activeEraFilters (this w1) = activeEraFilters (this w2).
Proof. unfold core. intros H. by simplify_eq. Qed.

Lemma init_normal w :
  dataset_wf (originalData (this w)) →
  currentData (this w) = originalData (this w) →
  outcome init w = Normal tt.
Proof.
  intros Hwf Hcur. unfold init, generateFilterButtons.
  pose proof Hwf as [(evs & Hev & Hevs) _].
  destruct (getUniqueGroups_vocabulary _ evs Hev Hevs) as (gl & Hg & _).
  pose proof (generateGroupButtons_normal w gl Hg) as Hout1.
  set (w1 := exec generateGroupButtons w).
  destruct (core_fields _ _ (generateGroupButtons_keeps_core w))
    as (Ho1 & Hc1 & _). fold w1 in Ho1, Hc1.
  destruct (getUniqueEras_total (this w1)) as (el & He);
    [by rewrite Ho1|].
  pose proof (generateEraButtons_normal w1 el He) as Hout2.
  set (w2 := exec generateEraButtons w1).
  destruct (core_fields _ _ (generateEraButtons_keeps_core w1))
    as (Ho2 & Hc2 & _). fold w2 in Ho2, Hc2.
  assert (outcome (generateGroupButtons ;; generateEraButtons) w = Normal tt
          ∧ exec (generateGroupButtons ;; generateEraButtons) w = w2)
    as [Hout Hexec].
  { by rewrite (outcome_seq _ _ _ _ Hout1), (exec_seq_normal _ _ _ _ Hout1). }
  rewrite (outcome_seq _ _ _ _ Hout), Hexec.
  rewrite (outcome_seq _ _ _ _ (createTimeline_outcome w2)).
  set (w3 := exec createTimeline w2).
  destruct (core_fields _ _ (createTimeline_keeps_core w2))
    as (Ho3 & Hc3 & _). fold w3 in Ho3, Hc3.
  destruct (eras_or_none_wf _ Hwf) as (ers & Hers).
  unfold outcome.
  rewrite (updateFilterStatus_run w3 evs evs ers ers); [done|..];
    rewrite ?Hc3, ?Hc2, ?Hc1, ?Hcur, ?Ho3, ?Ho2, ?Ho1; done.
Qed.

Lemma constructor_normal D doc :
  dataset_wf D → ∃ t d, constructor D doc = (Normal t, d).
Proof.
  intros Hwf. unfold constructor.
  match goal with
  | |- context [init ?w0] =>
      pose proof (init_normal w0) as H; unfold outcome in H;
      destruct (init w0) as [[[]|e] w']
  end; [by eauto|].
  simpl in H. rewrite !JSON_copy_id in H. by discriminate H.
Qed.

Lemma applyFilters_normal w :
  dataset_wf (originalData (this w)) →
  eras_have_text (originalData (this w)) →
  outcome applyFilters w = Normal tt.
Proof.
  intros Hwf Htext. unfold outcome. rewrite applyFilters_run, JSON_copy_id.
  set (w0 := set_currentData (originalData (this w)) w).
  fold (outcome refilter w0). unfold refilter.
  pose proof Hwf as [(evs & Hev & Hevs%event_wf_nonnull) Heras].
  destruct (filterEvents_normal w0 evs Hev Hevs) as [Hout1 Hev1].
  rewrite (outcome_seq _ _ _ _ Hout1).
  set (w1 := exec filterEvents w0) in *.
  destruct (filterEvents_keeps_selection w0) as (Ho1 & _). fold w1 in Ho1.
  assert (∃ ers, outcome filterEras w1 = Normal tt
                 ∧ eras_or_none (currentData (this (exec filterEras w1))) ers)
    as (ers1 & Hout2 & Her2).
  { destruct Heras as [Hnone | (ers & Her & _)].
    - assert (get_prop (currentData (this w1)) "eras" = Normal None) as H1
        by (unfold w1; by rewrite filterEvents_frame).
      exists []. unfold outcome, exec. rewrite (filterEras_none w1 H1).
      split; [done|by right].
    - assert (eras_in (currentData (this w1)) ers) as H1
        by (unfold eras_in, w1; by rewrite filterEvents_frame).
      destruct (filterEras_normal w1 ers H1 (Htext ers Her)) as [? ?].
      eexists. split; [done|]. left. eassumption. }
  rewrite (outcome_seq _ _ _ _ Hout2).
  set (w2 := exec filterEras w1) in *.
  destruct (filterEras_keeps_selection w1) as (Ho2 & _). fold w2 in Ho2.
  assert (∃ evs2, events_in (currentData (this w2)) evs2) as (evs2 & Hev2).
  { eexists. unfold events_in, w2. rewrite filterEras_frame by done.
    exact Hev1. }
  unfold recreateTimeline.
  rewrite (outcome_seq _ _ _ _ (createTimeline_outcome w2)).
  set (w3 := exec createTimeline w2).
  destruct (core_fields _ _ (createTimeline_keeps_core w2))
    as (Ho3 & Hc3 & _). fold w3 in Ho3, Hc3.
  destruct (eras_or_none_wf _ Hwf) as (ers & Hers).
  unfold outcome.
  rewrite (updateFilterStatus_run w3 evs evs2 ers ers1); [done|..];
    rewrite ?Hc3, ?Ho3, ?Ho2, ?Ho1; done.
Qed.

(** X5: on a dataset of the input shape whose eras all have a [text], the
    constructor completes and so does every action after any others. *)
Lemma operations_total D doc :
  dataset_wf D → eras_have_text D →
  ∃ t d, constructor D doc = (Normal t, d)
         ∧ ∀ actions a,
             outcome (perform a)
               (session actions {| this := t; document := d |})
             = Normal tt.
Proof.
  intros Hwf Htext. destruct (constructor_normal D doc Hwf) as (t & d & Hnew).
  exists t, d. split; [done|]. intros actions a.
  destruct (session_settled actions _ (constructor_settled _ _ _ _ Hnew))
    as [_ Ho].
  apply constructor_core in Hnew. unfold core in Hnew. simpl in *.
  set (w := session actions _) in *.
  assert (originalData (this w) = D) as HD by congruence.
  destruct (perform_run a w) as (w1 & Hrun & Ho1).
  unfold outcome. rewrite Hrun.
  apply applyFilters_normal; rewrite Ho1, HD; done.
Qed.

(** ** The constructor on the sample timeline *)

Lemma sample_constructed :
  constructor sample_timeline blank_page = (Normal sample_instance, sample_page).
Proof. vm_compute. reflexivity. Qed.

(** ** The era filter on an era without text *)

Lemma untitled_timeline_wf : dataset_wf untitled_timeline.
Proof.
  split.
  - exists sample_events. split; [reflexivity|].
    repeat (constructor;
            [eexists; split;
             [reflexivity|first [by left | right; by eexists]]|]).
    constructor.
  - right. exists untitled_eras. split; [reflexivity|].
    repeat (constructor;
            [eexists; split; [reflexivity|];
             intros h Hh; simpl in Hh;
             first [discriminate Hh
                   |injection Hh as <-; first [by left | right; by eexists]]|]).
    constructor.
Qed.

(** C1 (fails on the code): [untitled_timeline] has the input shape, its
    last era has no [text]; the constructor completes on it, and then the
    click on the button of era "Phase 1" throws a [TypeError], as does any
    further [applyFilters] while an era label is active: the callback of the
    era filter reads [era.text.headline]. *)
Theorem era_filter_faults_on_era_without_text :
  dataset_wf untitled_timeline
  ∧ constructor untitled_timeline blank_page
    = (Normal untitled_instance, untitled_page)
  ∧ outcome (toggleEraFilter "Phase 1" 1) untitled_world = Throw TypeError
  ∧ outcome applyFilters (exec (toggleEraFilter "Phase 1" 1) untitled_world)
    = Throw TypeError.
Proof.
  split; [exact untitled_timeline_wf|].
  repeat split; vm_compute; reflexivity.
Qed.

(** C2 (fails on the code): after the click on the button of era "Phase 1"
    of [untitled_timeline], the era set is not empty and does not hold
    "Phase 2", yet the view keeps every era: the one headed "Phase 2" and the
    one without a headline are both still there. *)
Theorem eras_not_filtered_after_fault :
  constructor untitled_timeline blank_page
  = (Normal untitled_instance, untitled_page)
  ∧ let w := exec (toggleEraFilter "Phase 1" 1) untitled_world in
    activeEraFilters (this w) = {["Phase 1"]}
    ∧ eras_in (currentData (this w)) untitled_eras
    ∧ has_headline (era_of "2025" "2026" (Some "Phase 2")) "Phase 2"
    ∧ get_prop (era_of "2026" "2026" None) "text" = Normal None.
Proof.
  split; [vm_compute; reflexivity|].
  split; [vm_compute; reflexivity|]. split; [vm_compute; reflexivity|].
  split; [|reflexivity]. eexists. split; reflexivity.
Qed.

(** ** The theorems on the sample timeline *)

Lemma sample_events_nonnull : Forall (λ event, event ≠ JNull) sample_events.
Proof. repeat (constructor; [discriminate|]). constructor. Defined.

Lemma sample_events_wf : Forall event_wf sample_events.
Proof.
  repeat (constructor;
          [eexists; split;
           [reflexivity|first [by left | right; by eexists]]|]).
  constructor.
Defined.

Lemma sample_eras_wf : Forall era_wf sample_eras.
Proof.
  repeat (constructor;
          [eexists; split; [reflexivity|];
           intros h Hh; simpl in Hh; injection Hh as <-;
           right; by eexists|]).
  constructor.
Defined.

Lemma events_filtered_by_group_witness :
  events_in (originalData (this planning_world)) sample_events
  ∧ Forall (λ event, event ≠ JNull) sample_events
  ∧ ∃ kept,
      events_in (currentData (this (exec applyFilters planning_world))) kept
      ∧ kept = List.filter
                 (group_in (activeGroupFilters (this planning_world)))
                 sample_events
      ∧ length kept = 4.
Proof.
  assert (events_in (originalData (this planning_world)) sample_events)
    as H1 by reflexivity.
  split; [exact H1|]. split; [exact sample_events_nonnull|].
  destruct (events_filtered_by_group planning_world sample_events H1
              sample_events_nonnull) as (kept & Hk & _ & Hsome).
  assert (activeGroupFilters (this planning_world) ≠ ∅) as Hne
    by (intros H; apply (f_equal size) in H; vm_compute in H; discriminate).
  destruct (Hsome Hne) as [Hkept _].
  exists kept. split; [exact Hk|]. split; [exact Hkept|].
  rewrite Hkept. vm_compute. reflexivity.
Defined.

Lemma view_is_function_of_dataset_and_selection_witness :
  constructor sample_timeline blank_page = (Normal sample_instance, sample_page)
  ∧ originalData
      (this (session [ToggleGroup "Planning" 2; ToggleEra "Phase 1" 1;
                      ClearGroups] sample_world))
    = sample_timeline.
Proof.
  assert (constructor sample_timeline blank_page
          = (Normal sample_instance, sample_page)) as H
    by (vm_compute; reflexivity).
  split; [exact H|].
  apply (view_is_function_of_dataset_and_selection
           sample_timeline blank_page sample_instance sample_page
           [ToggleGroup "Planning" 2; ToggleEra "Phase 1" 1; ClearGroups] H).
Defined.


Lemma empty_selection_identity_witness :
  activeGroupFilters (this sample_world) = ∅
  ∧ activeEraFilters (this sample_world) = ∅
  ∧ currentData (this (exec applyFilters sample_world)) = sample_timeline.
Proof.
  split; [reflexivity|]. split; [reflexivity|].
  apply (empty_selection_identity sample_world eq_refl eq_refl).
Defined.

Lemma toggle_twice_restores_witness :
  constructor sample_timeline blank_page = (Normal sample_instance, sample_page)
  ∧ activeGroupFilters
      (this (exec (toggleGroupFilter "Review" 3)
               (exec (toggleGroupFilter "Review" 3) planning_world)))
    = activeGroupFilters (this planning_world).
Proof.
  assert (constructor sample_timeline blank_page
          = (Normal sample_instance, sample_page)) as H
    by (vm_compute; reflexivity).
  split; [exact H|].
  apply (toggle_twice_restores
           sample_timeline blank_page sample_instance sample_page
           [ToggleGroup "Planning" 2] "Review" 3 H).
Defined.

Lemma status_text_witness :
  events_in (originalData (this planning_world)) sample_events
  ∧ events_in (currentData (this planning_world))
      (List.filter (group_in {["Planning"]}) sample_events)
  ∧ eras_or_none (originalData (this planning_world)) sample_eras
  ∧ eras_or_none (currentData (this planning_world)) sample_eras
  ∧ filter_status (document (exec updateFilterStatus planning_world))
    = "Showing 4/10 events".
Proof.
  assert (events_in (originalData (this planning_world)) sample_events)
    as H1 by reflexivity.
  assert (events_in (currentData (this planning_world))
            (List.filter (group_in {["Planning"]}) sample_events))
    as H2 by (vm_compute; reflexivity).
  assert (eras_or_none (originalData (this planning_world)) sample_eras)
    as H3 by (left; reflexivity).
  assert (eras_or_none (currentData (this planning_world)) sample_eras)
    as H4 by (left; vm_compute; reflexivity).
  repeat (split; [assumption|]).
  unfold exec.
  rewrite (status_text planning_world _ _ _ _ H1 H2 H3 H4).
  vm_compute. reflexivity.
Defined.

Lemma other_fields_unchanged_witness :
  "title" ≠ "events" ∧ "title" ≠ "eras"
  ∧ get_prop (currentData (this (exec applyFilters planning_world))) "title"
    = get_prop sample_timeline "title".
Proof.
  assert ("title" ≠ "events") as H1 by discriminate.
  assert ("title" ≠ "eras") as H2 by discriminate.
  split; [exact H1|]. split; [exact H2|].
  apply (other_fields_unchanged planning_world "title" H1 H2).
Defined.

Lemma filtering_preserves_order_witness :
  events_in (originalData (this planning_world)) sample_events
  ∧ ∃ kept,
      events_in (currentData (this (exec applyFilters planning_world))) kept
      ∧ sublist kept sample_events.
Proof.
  assert (events_in (originalData (this planning_world)) sample_events)
    as H1 by reflexivity.
  split; [exact H1|].
  apply (proj1 (filtering_preserves_order planning_world) sample_events H1).
Defined.

(** ** Scenarios *)

(** Three events in groups A, B, A: a click on A shows the two events of
    group A, a second click shows all three again. *)
Example toggle_scenario :
  constructor aba_timeline blank_page = (Normal (this aba_world),
                                         document aba_world)
  ∧ let once := exec (toggleGroupFilter "A" 1) aba_world in
    let twice := exec (toggleGroupFilter "A" 1) once in
    events_in (currentData (this once))
      [JObj [("group", JStr "A")]; JObj [("group", JStr "A")]]
    ∧ filter_status (document once) = "Showing 2/3 events"
    ∧ currentData (this twice) = aba_timeline
    ∧ filter_status (document twice) = "Showing all events".
Proof. repeat split; vm_compute; reflexivity. Qed.

(** The sample: one group label matching four of the ten events, then an
    era label as well, then all group labels cleared. *)
Example status_scenario :
  filter_status (document planning_world) = "Showing 4/10 events"
  ∧ filter_status
      (document (exec (toggleEraFilter "Phase 1" 1) planning_world))
    = "Showing 4/10 events, 1/3 eras"
  ∧ filter_status (document (exec clearGroupFilters planning_world))
    = "Showing all events".
Proof. repeat split; vm_compute; reflexivity. Qed.

(** An era whose [text] has no headline is not in the vocabulary, is shown
    while no era label is active and is dropped when one is. *)
Example era_without_headline_scenario :
  constructor plain_timeline blank_page = (Normal (this plain_world),
                                           document plain_world)
  ∧ getUniqueEras (this plain_world) = Normal [JStr "Phase 1"]
  ∧ eras_in (currentData (this plain_world))
      [era_of "2025" "2025" (Some "Phase 1"); plain_era]
  ∧ outcome (toggleEraFilter "Phase 1" 1) plain_world = Normal tt
  ∧ eras_in
      (currentData (this (exec (toggleEraFilter "Phase 1" 1) plain_world)))
      [era_of "2025" "2025" (Some "Phase 1")].
Proof. repeat split; vm_compute; reflexivity. Qed.

(** * Further properties *)

(** ** Frames of the page *)

Lemma keeps_field_bind {A B C} (f : world → C) (m : M A) (k : A → M B) :
  keeps_field f m → (∀ a, keeps_field f (k a)) → keeps_field f (bind m k).
Proof.
  intros Hm Hk w. specialize (Hm w). unfold exec, bind in *.
  destruct (m w) as [[a|e] w']; simpl in *; [|done].
  by rewrite <- Hm, <- (Hk a w').
Qed.

Ltac keeps_field_step :=
  match goal with
  | |- keeps_field _ (bind _ _) => apply keeps_field_bind; [|intros ?]
  | |- keeps_field _ (if ?b then _ else _) => destruct b
  | |- keeps_field _ (match ?x with Some _ => _ | None => _ end) =>
      destruct x
  | |- keeps_field _ _ => by intros ?
  end.

Lemma filterEvents_keeps_field {B} (f : world → B) :
  (∀ w d, f (set_currentData d w) = f w) → keeps_field f filterEvents.
Proof.
  intros Hf w. unfold exec. rewrite filterEvents_run. simpl.
  destruct (Nat.ltb 0 _); [|done]. destruct (cbind _ _); [|done]. apply Hf.
Qed.

Lemma filterEras_keeps_field {B} (f : world → B) :
  (∀ w d, f (set_currentData d w) = f w) → keeps_field f filterEras.
Proof.
  intros Hf w. unfold exec. rewrite filterEras_run. simpl.
  destruct (Nat.ltb 0 _); [|done].
  destruct (get_prop _ _) as [v|]; [|done].
  destruct (truthy v); [|done]. destruct (cbind _ _); [|done]. apply Hf.
Qed.

Lemma createTimeline_run w :
  createTimeline w
  = (Normal tt,
     {| this := with_timeline (Some (currentData (this w))) (this w);
        document :=
          with_timeline_embed (Some (currentData (this w))) (document w) |}).
Proof. unfold createTimeline. run. by destruct (timeline (this w)). Qed.

Lemma updateFilterStatus_this w : this (exec updateFilterStatus w) = this w.
Proof.
  unfold updateFilterStatus. run.
  repeat match goal with
         | |- context [match ?c with Normal _ => _ | Throw _ => _ end] =>
             destruct c; simpl; try done
         | |- context [if ?b then _ else _] => destruct b; simpl; try done
         end.
Qed.

Lemma updateFilterStatus_page w :
  buttons (exec updateFilterStatus w) = buttons w
  ∧ timeline_embed (document (exec updateFilterStatus w))
    = timeline_embed (document w).
Proof.
  unfold updateFilterStatus, buttons. run.
  repeat match goal with
         | |- context [match ?c with Normal _ => _ | Throw _ => _ end] =>
             destruct c; simpl; try done
         | |- context [if ?b then _ else _] => destruct b; simpl; try done
         end.
Qed.

Lemma applyFilters_keeps_buttons : keeps_field buttons applyFilters.
Proof.
  unfold applyFilters, recreateTimeline.
  repeat keeps_field_step.
  - by apply filterEvents_keeps_field.
  - by apply filterEras_keeps_field.
  - intros w. unfold exec. by rewrite createTimeline_run.
  - intros w. apply updateFilterStatus_page.
Qed.

(** ** [applyFilters] against [recompute] *)

Lemma events_in_of data l : events_in data l → events_of data = l.
Proof. unfold events_in, events_of. by intros ->. Qed.

Lemma eras_or_none_of data l : eras_or_none data l → eras_of data = l.
Proof.
  unfold eras_or_none, eras_in, eras_of. by intros [-> | [-> ->]].
Qed.

Lemma select_events_frame groups data k :
  k ≠ "events" → get_prop (select_events groups data) k = get_prop data k.
Proof.
  intros Hk. unfold select_events. case_bool_decide; [done|].
  by apply get_prop_set_prop_ne.
Qed.

Lemma select_eras_frame eras data k :
  k ≠ "eras" → get_prop (select_eras eras data) k = get_prop data k.
Proof.
  intros Hk. unfold select_eras. case_bool_decide; [done|].
  destruct (get_prop data "eras") as [[[]|]|]; try done.
  by apply get_prop_set_prop_ne.
Qed.

Lemma select_events_events groups data evs :
  events_in data evs →
  events_in (select_events groups data)
    (if bool_decide (groups = ∅) then evs
     else List.filter (group_in groups) evs).
Proof.
  intros Hev. unfold select_events. rewrite (events_in_of _ _ Hev).
  case_bool_decide; [done|].
  unfold events_in in *. by eapply get_prop_set_prop_eq.
Qed.

Lemma select_eras_eras eras data ers :
  eras_or_none data ers →
  eras_or_none (select_eras eras data)
    (if bool_decide (eras = ∅) then ers
     else List.filter (headline_in eras) ers).
Proof.
  intros Her. unfold select_eras. case_bool_decide; [done|].
  destruct Her as [Her | [Her ->]]; unfold eras_in in *; rewrite Her.
  - left. unfold eras_in. by eapply get_prop_set_prop_eq.
  - by right.
Qed.

Lemma set_currentData_same w :
  set_currentData (currentData (this w)) w = w.
Proof. by destruct w as [[] ?]. Qed.

Lemma filterEvents_effect w evs :
  events_in (currentData (this w)) evs →
  Forall (λ event, event ≠ JNull) evs →
  filterEvents w
  = (Normal tt,
     set_currentData
       (select_events (activeGroupFilters (this w)) (currentData (this w)))
       w).
Proof.
  intros Hev Hnn. rewrite filterEvents_run. cbv zeta.
  rewrite size_gset_ltb. unfold select_events.
  destruct (bool_decide (activeGroupFilters (this w) = ∅)); simpl.
  - by rewrite set_currentData_same.
  - rewrite (events_in_of _ _ Hev). unfold events_in in Hev. rewrite Hev.
    simpl. rewrite (Array_filter_pure _ (group_in (activeGroupFilters (this w)))).
    + done.
    + eapply Forall_impl; [exact Hnn|].
      intros e He. by apply group_selected_total.
Qed.

Lemma filterEras_effect w :
  (get_prop (currentData (this w)) "eras" = Normal None
   ∨ ∃ ers, eras_in (currentData (this w)) ers ∧ Forall era_has_text ers) →
  filterEras w
  = (Normal tt,
     set_currentData
       (select_eras (activeEraFilters (this w)) (currentData (this w))) w).
Proof.
  intros Her. rewrite filterEras_run. cbv zeta.
  rewrite size_gset_ltb. unfold select_eras.
  destruct (bool_decide (activeEraFilters (this w) = ∅)); simpl.
  - by rewrite set_currentData_same.
  - destruct Her as [Her | (ers & Her & Hwf)]; unfold eras_in in *;
      rewrite Her; simpl.
    + by rewrite set_currentData_same.
    + rewrite (Array_filter_pure _ (headline_in (activeEraFilters (this w)))).
      * done.
      * eapply Forall_impl; [exact Hwf|].
        intros e He. by apply era_selected_total.
Qed.

Lemma applyFilters_effect w evs :
  events_in (originalData (this w)) evs →
  Forall (λ event, event ≠ JNull) evs →
  (get_prop (originalData (this w)) "eras" = Normal None
   ∨ ∃ ers, eras_in (originalData (this w)) ers ∧ Forall era_has_text ers) →
  applyFilters w = (Normal tt, refiltered w).
Proof.
  intros Hev Hnn Her. rewrite applyFilters_run, JSON_copy_id.
  set (o := originalData (this w)) in *.
  set (G := activeGroupFilters (this w)).
  set (E := activeEraFilters (this w)).
  set (w0 := set_currentData o w).
  unfold refilter, bind.
  rewrite (filterEvents_effect w0 evs Hev Hnn).
  change (activeGroupFilters (this w0)) with G.
  change (currentData (this w0)) with o.
  set (v1 := select_events G o).
  set (w1 := set_currentData v1 w0).
  rewrite (filterEras_effect w1).
  2:{ change (currentData (this w1)) with v1. unfold v1, eras_in.
      by rewrite select_events_frame. }
  change (activeEraFilters (this w1)) with E.
  change (currentData (this w1)) with v1.
  set (v := select_eras E v1).
  set (w2 := set_currentData v w1).
  unfold recreateTimeline. rewrite createTimeline_run.
  change (currentData (this w2)) with v.
  set (w3 := {| this := with_timeline (Some v) (this w2);
                document := with_timeline_embed (Some v) (document w2) |}).
  assert (eras_or_none o (eras_of o)) as Hers.
  { destruct Her as [Her | (ers & Her & _)].
    - unfold eras_of. rewrite Her. by right.
    - unfold eras_of. unfold eras_in in Her. rewrite Her. by left. }
  assert (events_in v (events_of v)) as Hev3.
  { pose proof (select_events_events G o evs Hev) as H1. fold v1 in H1.
    unfold events_in in *. unfold events_of, v.
    by rewrite select_eras_frame, H1. }
  assert (eras_or_none v (eras_of v)) as Her3.
  { assert (eras_or_none v1 (eras_of o)) as H1.
    { unfold eras_or_none, eras_in, v1 in *.
      by rewrite select_events_frame. }
    pose proof (select_eras_eras E v1 _ H1) as H2. fold v in H2.
    by rewrite (eras_or_none_of _ _ H2). }
  rewrite (updateFilterStatus_run w3 (events_of o) (events_of v)
             (eras_of o) (eras_of v)); try done.
  by rewrite (events_in_of _ _ Hev).
Qed.

(** ** The constructor *)

Lemma toggle_button_empty label : toggle_button ∅ label = label_button label.
Proof.
  unfold toggle_button, label_button.
  by rewrite bool_decide_eq_false_2 by apply not_elem_of_empty.
Qed.

Lemma buttons_for_empty title labels :
  buttons_for title labels ∅
  = show_all_button title :: List.map label_button labels.
Proof.
  unfold buttons_for. f_equal; apply List.map_ext, toggle_button_empty.
Qed.

Lemma truthy_label s : s ≠ "" → truthy (Some (JStr s)) = true.
Proof. intros H. simpl. by apply String.eqb_neq in H as ->. Qed.

Lemma group_label_buttons labels w :
  Forall (λ s, s ≠ "") labels →
  forEach (List.map JStr labels)
    (add_label_button (λ b d, with_group_filters (group_filters d ++ [b]) d))
    w
  = (Normal tt,
     {| this := this w;
        document :=
          with_group_filters
            (group_filters (document w) ++ List.map label_button labels)
            (document w) |}).
Proof.
  intros Hne. revert w. induction Hne as [|s labels Hs _ IH]; intros w.
  - destruct w as [t [gf ef st te]]. simpl.
    unfold ret, with_group_filters. simpl. by rewrite app_nil_r.
  - cbn [List.map forEach]. unfold bind at 1.
    unfold add_label_button at 1. rewrite (truthy_label s Hs).
    unfold bind at 1, lift at 1. cbn [ToString]. unfold page at 1.
    rewrite IH. f_equal. f_equal. unfold with_group_filters.
    cbn [group_filters era_filters filter_status timeline_embed document].
    by rewrite <- app_assoc.
Qed.

Lemma era_label_buttons labels w :
  Forall (λ s, s ≠ "") labels →
  forEach (List.map JStr labels)
    (add_label_button (λ b d, with_era_filters (era_filters d ++ [b]) d)) w
  = (Normal tt,
     {| this := this w;
        document :=
          with_era_filters
            (era_filters (document w) ++ List.map label_button labels)
            (document w) |}).
Proof.
  intros Hne. revert w. induction Hne as [|s labels Hs _ IH]; intros w.
  - destruct w as [t [gf ef st te]]. simpl.
    unfold ret, with_era_filters. simpl. by rewrite app_nil_r.
  - cbn [List.map forEach]. unfold bind at 1.
    unfold add_label_button at 1. rewrite (truthy_label s Hs).
    unfold bind at 1, lift at 1. cbn [ToString]. unfold page at 1.
    rewrite IH. f_equal. f_equal. unfold with_era_filters.
    cbn [group_filters era_filters filter_status timeline_embed document].
    by rewrite <- app_assoc.
Qed.

Lemma is_vocabulary_nonempty labels P :
  is_vocabulary labels P → Forall (λ s, s ≠ "") labels.
Proof.
  intros (_ & _ & Hin). apply Forall_forall. intros s Hs.
  by apply Hin in Hs as [? _].
Qed.

Lemma generateGroupButtons_effect w labels :
  getUniqueGroups (this w) = Normal (List.map JStr labels) →
  Forall (λ s, s ≠ "") labels →
  generateGroupButtons w
  = (Normal tt,
     {| this := this w;
        document :=
          with_group_filters (buttons_for "Show All Groups" labels ∅)
            (document w) |}).
Proof.
  intros Hv Hne. unfold generateGroupButtons.
  unfold bind at 1, read at 1. unfold bind at 1, lift at 1.
  cbn [id]. rewrite Hv.
  unfold bind at 1, page at 1. unfold bind at 1, page at 1.
  rewrite group_label_buttons by done. rewrite buttons_for_empty.
  reflexivity.
Qed.

Lemma generateEraButtons_effect w labels :
  getUniqueEras (this w) = Normal (List.map JStr labels) →
  Forall (λ s, s ≠ "") labels →
  generateEraButtons w
  = (Normal tt,
     {| this := this w;
        document :=
          with_era_filters (buttons_for "Show All Eras" labels ∅)
            (document w) |}).
Proof.
  intros Hv Hne. unfold generateEraButtons.
  unfold bind at 1, read at 1. unfold bind at 1, lift at 1.
  cbn [id]. rewrite Hv.
  unfold bind at 1, page at 1. unfold bind at 1, page at 1.
  rewrite era_label_buttons by done. rewrite buttons_for_empty.
  reflexivity.
Qed.

Lemma eras_vocabulary_wf t :
  dataset_wf (originalData t) →
  ∃ labels,
    getUniqueEras t = Normal (List.map JStr labels)
    ∧ is_vocabulary labels
        (λ s, ∃ era, era ∈ eras_of (originalData t) ∧ has_headline era s).
Proof.
  intros [_ [Hnone | (ers & Her & Hwf)]].
  - exists []. split; [unfold getUniqueEras; by rewrite Hnone|].
    unfold eras_of. rewrite Hnone.
    split; [constructor|]. split; [constructor|].
    intros s. split; [by intros ?%elem_of_nil|].
    by intros (_ & era & ?%elem_of_nil & _).
  - destruct (getUniqueEras_vocabulary t ers Her Hwf) as (labels & H & Hv).
    exists labels. split; [done|].
    unfold eras_of. unfold eras_in in Her. by rewrite Her.
Qed.

Lemma constructor_effect D doc :
  dataset_wf D →
  ∃ groups eras,
    is_vocabulary groups
      (λ s, ∃ event, event ∈ events_of D ∧ has_group event s)
    ∧ is_vocabulary eras
        (λ s, ∃ era, era ∈ eras_of D ∧ has_headline era s)
    ∧ constructor D doc
      = (Normal (this (built D groups eras)),
         document (built D groups eras)).
Proof.
  intros Hwf. pose proof Hwf as [(evs & Hev & Hevs) _].
  set (fresh := {| originalData := D; currentData := D; timeline := None;
                   activeGroupFilters := ∅; activeEraFilters := ∅ |}).
  destruct (getUniqueGroups_vocabulary fresh evs Hev Hevs)
    as (groups & Hg & Hgv).
  destruct (eras_vocabulary_wf fresh Hwf) as (eras & He & Hev').
  exists groups, eras.
  split; [by rewrite (events_in_of _ _ Hev)|]. split; [done|].
  unfold constructor. rewrite !JSON_copy_id. fold fresh.
  unfold init, generateFilterButtons. unfold bind.
  rewrite (generateGroupButtons_effect {| this := fresh; document := doc |}
             groups Hg (is_vocabulary_nonempty _ _ Hgv)).
  match goal with
  | |- context [generateEraButtons ?w1] =>
      rewrite (generateEraButtons_effect w1 eras He
                 (is_vocabulary_nonempty _ _ Hev'))
  end.
  rewrite createTimeline_run.
  cbn [this document currentData].
  destruct (eras_or_none_wf _ Hwf) as (ers & Hers).
  match goal with
  | |- context [updateFilterStatus ?w3] =>
      rewrite (updateFilterStatus_run w3 evs evs ers ers) by done
  end.
  unfold status_line. rewrite !bool_decide_eq_true_2 by done.
  reflexivity.
Qed.

Lemma forEach_local_throw {S} (f : S → json → completion S) l x :
  x ∈ l → (∀ s, f s x = Throw TypeError) →
  ∀ s, forEach_local f l s = Throw TypeError.
Proof.
  induction 1 as [x l|x y l _ IH]; intros Hx s; simpl.
  - by rewrite Hx.
  - destruct (f s y) as [s'|[]]; simpl; [|done]. by apply IH.
Qed.

Lemma getUniqueGroups_throws t :
  (∀ l, ¬ events_in (originalData t) l)
  ∨ (∃ evs, events_in (originalData t) evs ∧ JNull ∈ evs) →
  getUniqueGroups t = Throw TypeError.
Proof.
  unfold getUniqueGroups, events_in. intros [Hno | (evs & Hev & Hnull)].
  - destruct (get_prop (originalData t) "events") as [[[]|]|[]];
      simpl; try done.
    by destruct (Hno items).
  - rewrite Hev. simpl.
    by rewrite (forEach_local_throw _ evs JNull Hnull).
Qed.

(** X2: when the dataset has no [events] array, or one of its events is
    [null], the constructor throws a [TypeError] before it has written
    anything to the page. *)
Theorem constructor_rejects_bad_events D doc :
  (∀ l, ¬ events_in D l) ∨ (∃ evs, events_in D evs ∧ JNull ∈ evs) →
  constructor D doc = (Throw TypeError, doc).
Proof.
  intros Hbad. unfold constructor. rewrite !JSON_copy_id.
  unfold init, generateFilterButtons, generateGroupButtons.
  unfold bind, read, lift. cbn [this id].
  by rewrite getUniqueGroups_throws.
Qed.


(** ** [applyFilters] on a dataset it does not fault on *)

Lemma dataset_usable data :
  dataset_wf data → eras_have_text data →
  ∃ evs, events_in data evs
         ∧ Forall (λ event, event ≠ JNull) evs
         ∧ (get_prop data "eras" = Normal None
            ∨ ∃ ers, eras_in data ers ∧ Forall era_has_text ers).
Proof.
  intros [(evs & Hev & Hevs) Heras] Htext. exists evs.
  split; [done|]. split; [by apply event_wf_nonnull|].
  destruct Heras as [? | (ers & Her & _)]; [by left|].
  right. exists ers. split; [done|]. by apply Htext.
Qed.

(** X3: on a dataset of the input shape whose eras all have a text,
    [applyFilters] completes and leaves exactly this: the view is the
    dataset with its events restricted to the active groups and its eras to
    the active headlines, the widget and the embed are built on that view,
    the status line gives its counts, and the stored dataset, the active
    sets and the buttons are as they were. *)
Theorem applyFilters_refines w :
  dataset_wf (originalData (this w)) →
  eras_have_text (originalData (this w)) →
  let view :=
    recompute (originalData (this w)) (activeGroupFilters (this w))
      (activeEraFilters (this w)) in
  applyFilters w
  = (Normal tt,
     {| this :=
          {| originalData := originalData (this w);
             currentData := view;
             timeline := Some view;
             activeGroupFilters := activeGroupFilters (this w);
             activeEraFilters := activeEraFilters (this w) |};
        document :=
          {| group_filters := group_filters (document w);
             era_filters := era_filters (document w);
             filter_status :=
               status_line (activeGroupFilters (this w))
                 (activeEraFilters (this w))
                 (events_of (originalData (this w))) (events_of view)
                 (eras_of (originalData (this w))) (eras_of view);
             timeline_embed := Some view |} |}).
Proof.
  intros Hwf Htext.
  destruct (dataset_usable _ Hwf Htext) as (evs & Hev & Hnn & Her).
  exact (applyFilters_effect w evs Hev Hnn Her).
Qed.

Lemma applyFilters_events w evs :
  events_in (originalData (this w)) evs →
  Forall (λ event, event ≠ JNull) evs →
  events_in (currentData (this (exec applyFilters w)))
    (if bool_decide (activeGroupFilters (this w) = ∅) then evs
     else List.filter (group_in (activeGroupFilters (this w))) evs).
Proof.
  intros Hev Hnn. rewrite applyFilters_currentData.
  set (w0 := set_currentData (originalData (this w)) w).
  destruct (filterEvents_normal w0 evs Hev Hnn) as [Hout Hk].
  rewrite (exec_seq_normal _ _ _ _ Hout).
  unfold events_in. by rewrite filterEras_frame.
Qed.

(** X4: the fault in full.  On a dataset with an era without [text], once
    an era label is active [applyFilters] throws a [TypeError] after it has
    reset the view and filtered its events: the eras of the view are all
    there, and the widget, the embed and the status line are those of before
    the call. *)
Theorem fault_leaves_display_stale w evs ers era :
  events_in (originalData (this w)) evs →
  Forall (λ event, event ≠ JNull) evs →
  eras_in (originalData (this w)) ers →
  era ∈ ers → get_prop era "text" = Normal None →
  activeEraFilters (this w) ≠ ∅ →
  applyFilters w
  = (Throw TypeError,
     set_currentData
       (select_events (activeGroupFilters (this w)) (originalData (this w)))
       w)
  ∧ eras_in (currentData (this (exec applyFilters w))) ers
  ∧ display (exec applyFilters w) = display w.
Proof.
  intros Hev Hnn Her Hin Htext Hne.
  assert (applyFilters w
          = (Throw TypeError,
             set_currentData
               (select_events (activeGroupFilters (this w))
                  (originalData (this w))) w)) as Hrun.
  { rewrite applyFilters_run, JSON_copy_id.
    set (o := originalData (this w)) in *.
    set (w0 := set_currentData o w).
    unfold refilter. unfold bind at 1.
    rewrite (filterEvents_effect w0 evs Hev Hnn).
    change (activeGroupFilters (this w0)) with (activeGroupFilters (this w)).
    change (currentData (this w0)) with o.
    set (v1 := select_events (activeGroupFilters (this w)) o).
    set (w1 := set_currentData v1 w0).
    assert (eras_in (currentData (this w1)) ers) as Her1.
    { change (currentData (this w1)) with v1. unfold v1, eras_in.
      by rewrite select_events_frame. }
    pose proof (Array_filter_throw
                  (era_selected (activeEraFilters (this w1)))
                  ers era Hin (era_selected_no_text _ _ Htext)) as Hthrow.
    destruct (filterEras_eras w1 ers Her1)
      as [[Hg _] | [(_ & kept & Hf & _) | (_ & _ & Hout2 & Hw)]].
    { by destruct Hne. }
    { rewrite Hthrow in Hf. discriminate Hf. }
    unfold bind at 1. unfold outcome, exec in Hout2, Hw.
    destruct (filterEras w1) as [c w1']. simpl in Hout2, Hw.
    rewrite Hout2, Hw. by destruct w as [[] ?]. }
  split; [done|]. unfold exec. rewrite Hrun. cbn [snd]. split; [|done].
  unfold eras_in. cbn [set_currentData this currentData with_currentData].
  by rewrite select_events_frame.
Qed.

Lemma outcome_seq_inv {A B} (m : M A) (k : M B) w b :
  outcome (m ;; k) w = Normal b →
  outcome k (exec m w) = Normal b ∧ exec (m ;; k) w = exec k (exec m w).
Proof.
  unfold outcome, exec, bind. by destruct (m w) as [[a|e] w'].
Qed.

(** X10: whenever [applyFilters] completes, the widget and the embed are
    built on the view it has just computed. *)
Theorem completed_applyFilters_renders_view w :
  outcome applyFilters w = Normal tt →
  timeline (this (exec applyFilters w))
  = Some (currentData (this (exec applyFilters w)))
  ∧ timeline_embed (document (exec applyFilters w))
    = Some (currentData (this (exec applyFilters w))).
Proof.
  unfold outcome, exec. rewrite applyFilters_run.
  set (w0 := set_currentData _ w). fold (outcome refilter w0) (exec refilter w0).
  unfold refilter. intros H.
  apply outcome_seq_inv in H as [H ->].
  apply outcome_seq_inv in H as [H ->].
  apply outcome_seq_inv in H as [H ->].
  rewrite updateFilterStatus_this.
  rewrite (proj2 (updateFilterStatus_page _)).
  set (w2 := exec filterEras (exec filterEvents w0)).
  assert (exec recreateTimeline w2
          = {| this := with_timeline (Some (currentData (this w2))) (this w2);
               document :=
                 with_timeline_embed (Some (currentData (this w2)))
                   (document w2) |}) as ->
    by (unfold recreateTimeline, exec; by rewrite createTimeline_run).
  done.
Qed.

(** ** Toggles and clears *)

Lemma toggleGroupFilter_state group button w :
  ∃ w1, toggleGroupFilter group button w = applyFilters w1
        ∧ originalData (this w1) = originalData (this w)
        ∧ selection w1
          = (toggled group (activeGroupFilters (this w)),
             activeEraFilters (this w))
        ∧ buttons w1
          = (alter (with_active
                      (negb (bool_decide (group ∈ activeGroupFilters (this w)))))
               button (group_filters (document w)),
             era_filters (document w)).
Proof.
  unfold toggleGroupFilter, toggled, selection, buttons. run.
  case_bool_decide; simpl; eexists; (split; [reflexivity|done]).
Qed.

Lemma toggleEraFilter_state era button w :
  ∃ w1, toggleEraFilter era button w = applyFilters w1
        ∧ originalData (this w1) = originalData (this w)
        ∧ selection w1
          = (activeGroupFilters (this w),
             toggled era (activeEraFilters (this w)))
        ∧ buttons w1
          = (group_filters (document w),
             alter (with_active
                      (negb (bool_decide (era ∈ activeEraFilters (this w)))))
               button (era_filters (document w))).
Proof.
  unfold toggleEraFilter, toggled, selection, buttons. run.
  case_bool_decide; simpl; eexists; (split; [reflexivity|done]).
Qed.

Lemma clearGroupFilters_state w :
  ∃ w1, clearGroupFilters w = applyFilters w1
        ∧ originalData (this w1) = originalData (this w)
        ∧ selection w1 = (∅, activeEraFilters (this w))
        ∧ buttons w1
          = (List.map deactivate (group_filters (document w)),
             era_filters (document w)).
Proof.
  unfold clearGroupFilters, selection, buttons. run.
  eexists. split; [reflexivity|done].
Qed.

Lemma clearEraFilters_state w :
  ∃ w1, clearEraFilters w = applyFilters w1
        ∧ originalData (this w1) = originalData (this w)
        ∧ selection w1 = (activeGroupFilters (this w), ∅)
        ∧ buttons w1
          = (group_filters (document w),
             List.map deactivate (era_filters (document w))).
Proof.
  unfold clearEraFilters, selection, buttons. run.
  eexists. split; [reflexivity|done].
Qed.

Lemma applyFilters_selection w :
  selection (exec applyFilters w) = selection w.
Proof.
  destruct (applyFilters_keeps_selection w) as (_ & Hg & He).
  unfold selection. by rewrite Hg, He.
Qed.

Lemma selection_fields w groups eras :
  selection w = (groups, eras) →
  activeGroupFilters (this w) = groups ∧ activeEraFilters (this w) = eras.
Proof. unfold selection. by intros [= -> ->]. Qed.

Lemma filterEvents_skip w :
  activeGroupFilters (this w) = ∅ → filterEvents w = (Normal tt, w).
Proof.
  intros H. rewrite filterEvents_run. cbv zeta. by rewrite H, size_empty.
Qed.

Lemma filterEras_skip w :
  activeEraFilters (this w) = ∅ → filterEras w = (Normal tt, w).
Proof.
  intros H. rewrite filterEras_run. cbv zeta. by rewrite H, size_empty.
Qed.

Lemma applyFilters_all_events w evs :
  activeGroupFilters (this w) = ∅ →
  events_in (originalData (this w)) evs →
  events_in (currentData (this (exec applyFilters w))) evs.
Proof.
  intros Hg Hev. rewrite applyFilters_currentData.
  set (w0 := set_currentData (originalData (this w)) w).
  assert (exec filterEvents w0 = w0) as Hskip
    by (unfold exec; by rewrite filterEvents_skip).
  unfold events_in.
  destruct (exec_seq_cases filterEvents filterEras w0) as [-> | ->];
    rewrite Hskip; [done|].
  by rewrite filterEras_frame.
Qed.

Lemma applyFilters_all_eras w ers :
  activeEraFilters (this w) = ∅ →
  eras_in (originalData (this w)) ers →
  eras_in (currentData (this (exec applyFilters w))) ers.
Proof.
  intros He Her. rewrite applyFilters_currentData.
  set (w0 := set_currentData (originalData (this w)) w).
  assert (eras_in (currentData (this (exec filterEvents w0))) ers) as H1
    by (unfold eras_in; by rewrite filterEvents_frame).
  destruct (exec_seq_cases filterEvents filterEras w0) as [-> | ->];
    [done|].
  destruct (filterEvents_keeps_selection w0) as (_ & _ & He1).
  unfold exec at 1. rewrite filterEras_skip; [done|].
  by rewrite He1.
Qed.

(** X7: [clearGroupFilters] empties the active group set and leaves the
    era set, takes the [active] class off every label button of the group
    container and touches no other button, and the view it leaves holds
    every event of the dataset, whatever the events and eras are. *)
Theorem clearGroupFilters_shows_all_events w :
  let w' := exec clearGroupFilters w in
  selection w' = (∅, activeEraFilters (this w))
  ∧ buttons w'
    = (List.map deactivate (group_filters (document w)),
       era_filters (document w))
  ∧ ∀ evs, events_in (originalData (this w)) evs →
           events_in (currentData (this w')) evs.
Proof.
  cbv zeta.
  destruct (clearGroupFilters_state w) as (w1 & Hrun & Ho & Hs & Hb).
  assert (exec clearGroupFilters w = exec applyFilters w1) as ->
    by exact (f_equal snd Hrun).
  rewrite applyFilters_selection, applyFilters_keeps_buttons.
  split; [done|]. split; [done|]. intros evs Hev.
  apply selection_fields in Hs as [Hg _].
  apply applyFilters_all_events; [done|by rewrite Ho].
Qed.

(** X8: [clearEraFilters] empties the active era set and leaves the group
    set, takes the [active] class off every label button of the era
    container and touches no other button, and the view it leaves holds
    every era of the dataset, also on a dataset with eras without text. *)
Theorem clearEraFilters_shows_all_eras w :
  let w' := exec clearEraFilters w in
  selection w' = (activeGroupFilters (this w), ∅)
  ∧ buttons w'
    = (group_filters (document w),
       List.map deactivate (era_filters (document w)))
  ∧ ∀ ers, eras_in (originalData (this w)) ers →
           eras_in (currentData (this w')) ers.
Proof.
  cbv zeta.
  destruct (clearEraFilters_state w) as (w1 & Hrun & Ho & Hs & Hb).
  assert (exec clearEraFilters w = exec applyFilters w1) as ->
    by exact (f_equal snd Hrun).
  rewrite applyFilters_selection, applyFilters_keeps_buttons.
  split; [done|]. split; [done|]. intros ers Her.
  apply selection_fields in Hs as [_ He].
  apply applyFilters_all_eras; [done|by rewrite Ho].
Qed.

Lemma toggled_comm a b (s : gset string) :
  toggled a (toggled b s) = toggled b (toggled a s).
Proof.
  destruct (decide (a = b)) as [->|Hne]; [done|].
  unfold toggled.
  destruct (decide (a ∈ s)) as [Ha|Ha], (decide (b ∈ s)) as [Hb|Hb];
    rewrite ?(bool_decide_eq_true_2 _ Ha), ?(bool_decide_eq_false_2 _ Ha),
      ?(bool_decide_eq_true_2 _ Hb), ?(bool_decide_eq_false_2 _ Hb).
  - rewrite (bool_decide_eq_true_2 (a ∈ s ∖ {[b]})) by set_solver.
    rewrite (bool_decide_eq_true_2 (b ∈ s ∖ {[a]})) by set_solver.
    set_solver.
  - rewrite (bool_decide_eq_true_2 (a ∈ s ∪ {[b]})) by set_solver.
    rewrite (bool_decide_eq_false_2 (b ∈ s ∖ {[a]})) by set_solver.
    set_solver.
  - rewrite (bool_decide_eq_false_2 (a ∈ s ∖ {[b]})) by set_solver.
    rewrite (bool_decide_eq_true_2 (b ∈ s ∪ {[a]})) by set_solver.
    set_solver.
  - rewrite (bool_decide_eq_false_2 (a ∈ s ∪ {[b]})) by set_solver.
    rewrite (bool_decide_eq_false_2 (b ∈ s ∪ {[a]})) by set_solver.
    set_solver.
Qed.

Lemma toggleGroupFilter_after group button w :
  originalData (this (exec (toggleGroupFilter group button) w))
  = originalData (this w)
  ∧ selection (exec (toggleGroupFilter group button) w)
    = (toggled group (activeGroupFilters (this w)), activeEraFilters (this w)).
Proof.
  destruct (toggleGroupFilter_state group button w)
    as (w1 & Hrun & Ho & Hs & _).
  assert (exec (toggleGroupFilter group button) w = exec applyFilters w1)
    as -> by exact (f_equal snd Hrun).
  rewrite applyFilters_selection.
  split; [|done]. rewrite <- Ho. apply applyFilters_keeps_selection.
Qed.

Lemma toggleEraFilter_after era button w :
  originalData (this (exec (toggleEraFilter era button) w))
  = originalData (this w)
  ∧ selection (exec (toggleEraFilter era button) w)
    = (activeGroupFilters (this w), toggled era (activeEraFilters (this w))).
Proof.
  destruct (toggleEraFilter_state era button w)
    as (w1 & Hrun & Ho & Hs & _).
  assert (exec (toggleEraFilter era button) w = exec applyFilters w1)
    as -> by exact (f_equal snd Hrun).
  rewrite applyFilters_selection.
  split; [|done]. rewrite <- Ho. apply applyFilters_keeps_selection.
Qed.

(** The view after an action is the one of its dataset and selection. *)
Lemma view_determined w1 w2 a1 a2 :
  originalData (this (exec (perform a1) w1))
  = originalData (this (exec (perform a2) w2)) →
  selection (exec (perform a1) w1) = selection (exec (perform a2) w2) →
  currentData (this (exec (perform a1) w1))
  = currentData (this (exec (perform a2) w2)).
Proof.
  intros Ho Hs.
  destruct (perform_settled a1 w1) as [H1 _].
  destruct (perform_settled a2 w2) as [H2 _].
  unfold settled in H1, H2. rewrite H1, H2.
  unfold selection in Hs. injection Hs as Hg He.
  by apply applyFilters_deterministic.
Qed.

(** X9: toggles commute.  Two group labels, or a group label and an era
    label, toggled in either order leave the same active sets and the same
    view, from any state and whether or not a toggle throws. *)
Theorem toggles_commute w a ia b ib e ie :
  (let ab := exec (toggleGroupFilter b ib) (exec (toggleGroupFilter a ia) w) in
   let ba := exec (toggleGroupFilter a ia) (exec (toggleGroupFilter b ib) w) in
   selection ab = selection ba
   ∧ currentData (this ab) = currentData (this ba))
  ∧ (let ae := exec (toggleEraFilter e ie) (exec (toggleGroupFilter a ia) w) in
     let ea := exec (toggleGroupFilter a ia) (exec (toggleEraFilter e ie) w) in
     selection ae = selection ea
     ∧ currentData (this ae) = currentData (this ea)).
Proof.
  split; cbv zeta.
  - destruct (toggleGroupFilter_after a ia w) as [Ho1 Hs1].
    destruct (toggleGroupFilter_after b ib w) as [Ho2 Hs2].
    apply selection_fields in Hs1 as [Hg1 He1], Hs2 as [Hg2 He2].
    destruct (toggleGroupFilter_after b ib (exec (toggleGroupFilter a ia) w))
      as [Ho3 Hs3].
    destruct (toggleGroupFilter_after a ia (exec (toggleGroupFilter b ib) w))
      as [Ho4 Hs4].
    assert (selection
              (exec (toggleGroupFilter b ib) (exec (toggleGroupFilter a ia) w))
            = selection
                (exec (toggleGroupFilter a ia)
                   (exec (toggleGroupFilter b ib) w))) as Hs.
    { rewrite Hs3, Hs4, Hg1, He1, Hg2, He2. by rewrite toggled_comm. }
    split; [done|].
    apply (view_determined _ _ (ToggleGroup b ib) (ToggleGroup a ia));
      [simpl; congruence|exact Hs].
  - destruct (toggleGroupFilter_after a ia w) as [Ho1 Hs1].
    destruct (toggleEraFilter_after e ie w) as [Ho2 Hs2].
    apply selection_fields in Hs1 as [Hg1 He1], Hs2 as [Hg2 He2].
    destruct (toggleEraFilter_after e ie (exec (toggleGroupFilter a ia) w))
      as [Ho3 Hs3].
    destruct (toggleGroupFilter_after a ia (exec (toggleEraFilter e ie) w))
      as [Ho4 Hs4].
    assert (selection
              (exec (toggleEraFilter e ie) (exec (toggleGroupFilter a ia) w))
            = selection
                (exec (toggleGroupFilter a ia)
                   (exec (toggleEraFilter e ie) w))) as Hs.
    { rewrite Hs3, Hs4, Hg1, He1, Hg2, He2. done. }
    split; [done|].
    apply (view_determined _ _ (ToggleEra e ie) (ToggleGroup a ia));
      [simpl; congruence|exact Hs].
Qed.

(** ** What a selection shows *)

Lemma applyFilters_eras w evs ers :
  events_in (originalData (this w)) evs →
  Forall (λ event, event ≠ JNull) evs →
  eras_in (originalData (this w)) ers →
  Forall era_has_text ers →
  eras_in (currentData (this (exec applyFilters w)))
    (if bool_decide (activeEraFilters (this w) = ∅) then ers
     else List.filter (headline_in (activeEraFilters (this w))) ers).
Proof.
  intros Hev Hnn Her Hwf. rewrite applyFilters_currentData.
  set (w0 := set_currentData (originalData (this w)) w).
  destruct (filterEvents_normal w0 evs Hev Hnn) as [Hout _].
  rewrite (exec_seq_normal _ _ _ _ Hout).
  assert (eras_in (currentData (this (exec filterEvents w0))) ers) as Her1
    by (unfold eras_in; by rewrite filterEvents_frame).
  destruct (filterEras_normal _ ers Her1 Hwf) as [_ Hkept].
  destruct (filterEvents_keeps_selection w0) as (_ & _ & He).
  by rewrite He in Hkept.
Qed.

Lemma filter_sublist_mono {A} (p q : A → bool) (l : list A) :
  (∀ x, p x = true → q x = true) →
  sublist (List.filter p l) (List.filter q l).
Proof.
  intros Hpq. induction l as [|x l IH]; simpl; [constructor|].
  destruct (p x) eqn:Hp.
  - rewrite (Hpq x Hp). by constructor.
  - destruct (q x); [by constructor|done].
Qed.

(** X11: selecting more group labels never hides an event: of two
    selections on one dataset, the second containing the first and the first
    not empty, the events shown under the first are a subsequence of those
    shown under the second. *)
Theorem more_labels_more_events w1 w2 evs :
  originalData (this w2) = originalData (this w1) →
  events_in (originalData (this w1)) evs →
  Forall (λ event, event ≠ JNull) evs →
  activeGroupFilters (this w1) ≠ ∅ →
  activeGroupFilters (this w1) ⊆ activeGroupFilters (this w2) →
  ∃ shown1 shown2,
    events_in (currentData (this (exec applyFilters w1))) shown1
    ∧ events_in (currentData (this (exec applyFilters w2))) shown2
    ∧ sublist shown1 shown2.
Proof.
  intros Ho Hev Hnn Hne Hsub.
  pose proof (applyFilters_events w1 evs Hev Hnn) as H1.
  assert (events_in (originalData (this w2)) evs) as Hev2 by by rewrite Ho.
  pose proof (applyFilters_events w2 evs Hev2 Hnn) as H2.
  assert (activeGroupFilters (this w2) ≠ ∅) as Hne2 by set_solver.
  rewrite bool_decide_eq_false_2 in H1, H2 by done.
  eexists _, _. split; [exact H1|]. split; [exact H2|].
  apply filter_sublist_mono. intros e.
  rewrite !group_in_spec. intros (g & Hg & Hin). exists g. split; [done|].
  by apply Hsub.
Qed.

Lemma toggled_empty label : toggled label ∅ = {[label]}.
Proof.
  unfold toggled. rewrite bool_decide_eq_false_2 by apply not_elem_of_empty.
  set_solver.
Qed.

(** X12: a group label that some event carries is never a dead choice:
    toggled on from an empty group selection it shows exactly the events of
    that group, and there is at least one. *)
Theorem group_label_shows_its_events w evs label button :
  events_in (originalData (this w)) evs →
  Forall (λ event, event ≠ JNull) evs →
  activeGroupFilters (this w) = ∅ →
  (∃ event, event ∈ evs ∧ has_group event label) →
  ∃ shown,
    events_in
      (currentData (this (exec (toggleGroupFilter label button) w))) shown
    ∧ shown ≠ []
    ∧ ∀ event, event ∈ shown ↔ event ∈ evs ∧ has_group event label.
Proof.
  intros Hev Hnn Hg (e0 & He0 & Hl0).
  destruct (toggleGroupFilter_state label button w)
    as (w1 & Hrun & Ho & Hs & _).
  assert (exec (toggleGroupFilter label button) w = exec applyFilters w1)
    as -> by exact (f_equal snd Hrun).
  apply selection_fields in Hs as [Hg1 _].
  rewrite Hg, toggled_empty in Hg1.
  rewrite <- Ho in Hev.
  pose proof (applyFilters_events w1 evs Hev Hnn) as Hshown.
  rewrite Hg1 in Hshown.
  rewrite bool_decide_eq_false_2 in Hshown
    by apply (non_empty_singleton_L label).
  assert (∀ event, event ∈ List.filter (group_in {[label]}) evs
                   ↔ event ∈ evs ∧ has_group event label) as Hin.
  { intros event. rewrite list_elem_of_In, filter_In, <- list_elem_of_In.
    rewrite group_in_spec. split.
    - intros [? (g & Hgr & ->%elem_of_singleton)]. done.
    - intros [? ?]. split; [done|]. exists label. split; [done|].
      by apply elem_of_singleton. }
  eexists. split; [exact Hshown|]. split; [|exact Hin].
  intros Hnil. assert (e0 ∈ List.filter (group_in {[label]}) evs) as H
    by by apply Hin.
  rewrite Hnil in H. by apply elem_of_nil in H.
Qed.

(** X13: the two dimensions are independent.  The events shown depend on
    the dataset and the group set alone, and, where the era filter does not
    fault, the eras shown depend on the dataset and the era set alone. *)
Theorem dimensions_independent w1 w2 evs :
  originalData (this w2) = originalData (this w1) →
  events_in (originalData (this w1)) evs →
  Forall (λ event, event ≠ JNull) evs →
  (activeGroupFilters (this w2) = activeGroupFilters (this w1) →
   events_of (currentData (this (exec applyFilters w2)))
   = events_of (currentData (this (exec applyFilters w1))))
  ∧ (∀ ers,
       eras_in (originalData (this w1)) ers → Forall era_has_text ers →
       activeEraFilters (this w2) = activeEraFilters (this w1) →
       eras_of (currentData (this (exec applyFilters w2)))
       = eras_of (currentData (this (exec applyFilters w1)))).
Proof.
  intros Ho Hev Hnn.
  assert (events_in (originalData (this w2)) evs) as Hev2 by by rewrite Ho.
  split.
  - intros Hg.
    rewrite (events_in_of _ _ (applyFilters_events w1 evs Hev Hnn)).
    rewrite (events_in_of _ _ (applyFilters_events w2 evs Hev2 Hnn)).
    by rewrite Hg.
  - intros ers Her Hwf He.
    assert (eras_in (originalData (this w2)) ers) as Her2 by by rewrite Ho.
    rewrite (eras_or_none_of _ _
               (or_introl (applyFilters_eras w1 evs ers Hev Hnn Her Hwf))).
    rewrite (eras_or_none_of _ _
               (or_introl (applyFilters_eras w2 evs ers Hev2 Hnn Her2 Hwf))).
    by rewrite He.
Qed.

(** ** The page after a session *)

Lemma recompute_no_selection data : recompute data ∅ ∅ = data.
Proof.
  unfold recompute, select_eras, select_events.
  by rewrite !bool_decide_eq_true_2.
Qed.

Lemma refiltered_built D groups eras :
  refiltered (built D groups eras) = built D groups eras.
Proof.
  unfold refiltered, built. cbn [this document originalData currentData
    activeGroupFilters activeEraFilters group_filters era_filters].
  rewrite recompute_no_selection. unfold status_line.
  by rewrite !bool_decide_eq_true_2.
Qed.

Lemma session_refiltered D actions w :
  dataset_wf D → eras_have_text D →
  originalData (this w) = D → refiltered w = w →
  originalData (this (session actions w)) = D
  ∧ refiltered (session actions w) = session actions w.
Proof.
  intros Hwf Htext. revert w.
  induction actions as [|a actions IH]; intros w Ho Hw; simpl; [done|].
  apply IH.
  - destruct (perform_settled a w) as [_ H]. congruence.
  - destruct (perform_run a w) as (w1 & Hrun & Ho1).
    assert (exec (perform a) w = exec applyFilters w1) as ->
      by exact (f_equal snd Hrun).
    assert (originalData (this w1) = D) as HD by congruence.
    rewrite <- HD in Hwf, Htext.
    destruct (dataset_usable _ Hwf Htext) as (evs & Hev & Hnn & Her).
    unfold exec. rewrite (applyFilters_effect w1 evs Hev Hnn Her).
    reflexivity.
Qed.

(** X14: on a dataset of the input shape whose eras all have a text, after
    construction and any sequence of toggles and clears the page shows the
    selection: the view, the widget and the embed are the dataset restricted
    to the active groups and headlines, and the status line gives the counts
    of that view. *)
Theorem page_shows_recomputed_view D doc t d actions :
  dataset_wf D → eras_have_text D →
  constructor D doc = (Normal t, d) →
  let w := session actions {| this := t; document := d |} in
  let view :=
    recompute D (activeGroupFilters (this w)) (activeEraFilters (this w)) in
  currentData (this w) = view
  ∧ timeline (this w) = Some view
  ∧ timeline_embed (document w) = Some view
  ∧ filter_status (document w)
    = status_line (activeGroupFilters (this w)) (activeEraFilters (this w))
        (events_of D) (events_of view) (eras_of D) (eras_of view).
Proof.
  intros Hwf Htext Hnew.
  destruct (constructor_effect D doc Hwf) as (groups & eras & _ & _ & Hc).
  assert ({| this := t; document := d |} = built D groups eras) as ->
    by (rewrite Hnew in Hc; by injection Hc as -> ->).
  destruct (session_refiltered D actions (built D groups eras) Hwf Htext
              eq_refl (refiltered_built D groups eras)) as [Ho Hfix].
  set (w := session actions (built D groups eras)) in *.
  cbv zeta. rewrite <- Ho.
  split; [exact (f_equal (λ w, currentData (this w)) (eq_sym Hfix))|].
  split; [exact (f_equal (λ w, timeline (this w)) (eq_sym Hfix))|].
  split; [exact (f_equal (λ w, timeline_embed (document w)) (eq_sym Hfix))|].
  exact (f_equal (λ w, filter_status (document w)) (eq_sym Hfix)).
Qed.

(** ** Buttons and selection under clicks *)











(** ** The further theorems on the sample timelines *)

Lemma sample_timeline_wf : dataset_wf sample_timeline.
Proof.
  split.
  - exists sample_events. split; [reflexivity|exact sample_events_wf].
  - right. exists sample_eras. split; [reflexivity|exact sample_eras_wf].
Defined.

Lemma sample_eras_have_text : Forall era_has_text sample_eras.
Proof.
  repeat (constructor; [eexists; split; [reflexivity|discriminate]|]).
  constructor.
Defined.

Lemma sample_timeline_eras_have_text : eras_have_text sample_timeline.
Proof.
  intros ers H. injection H as <-. exact sample_eras_have_text.
Defined.


Lemma constructor_rejects_bad_events_witness :
  (∀ l, ¬ events_in eventless_timeline l)
  ∧ constructor eventless_timeline blank_page = (Throw TypeError, blank_page).
Proof.
  assert (∀ l, ¬ events_in eventless_timeline l) as H
    by (intros l Hl; discriminate Hl).
  split; [exact H|].
  apply (constructor_rejects_bad_events eventless_timeline blank_page).
  left. exact H.
Defined.

Lemma applyFilters_refines_witness :
  dataset_wf (originalData (this (sample_selected {["Planning"]} ∅)))
  ∧ eras_have_text (originalData (this (sample_selected {["Planning"]} ∅)))
  ∧ outcome applyFilters (sample_selected {["Planning"]} ∅) = Normal tt
  ∧ currentData (this (exec applyFilters (sample_selected {["Planning"]} ∅)))
    = recompute sample_timeline {["Planning"]} ∅.
Proof.
  split; [exact sample_timeline_wf|].
  split; [exact sample_timeline_eras_have_text|].
  unfold outcome, exec.
  rewrite (applyFilters_refines (sample_selected {["Planning"]} ∅)
             sample_timeline_wf sample_timeline_eras_have_text).
  split; reflexivity.
Defined.

Lemma untitled_era_listed : era_of "2026" "2026" None ∈ untitled_eras.
Proof. unfold untitled_eras. repeat constructor. Defined.

Lemma phase_1_selected : ({["Phase 1"]} : gset string) ≠ ∅.
Proof. apply non_empty_singleton_L. Defined.

Lemma fault_leaves_display_stale_witness :
  events_in (originalData (this (untitled_selected ∅ {["Phase 1"]})))
    sample_events
  ∧ eras_in (originalData (this (untitled_selected ∅ {["Phase 1"]})))
      untitled_eras
  ∧ get_prop (era_of "2026" "2026" None) "text" = Normal None
  ∧ outcome applyFilters (untitled_selected ∅ {["Phase 1"]}) = Throw TypeError
  ∧ display (exec applyFilters (untitled_selected ∅ {["Phase 1"]}))
    = display (untitled_selected ∅ {["Phase 1"]}).
Proof.
  assert (events_in (originalData (this (untitled_selected ∅ {["Phase 1"]})))
            sample_events) as H1 by reflexivity.
  assert (eras_in (originalData (this (untitled_selected ∅ {["Phase 1"]})))
            untitled_eras) as H2 by reflexivity.
  assert (get_prop (era_of "2026" "2026" None) "text" = Normal None)
    as H3 by reflexivity.
  split; [exact H1|]. split; [exact H2|]. split; [exact H3|].
  destruct (fault_leaves_display_stale (untitled_selected ∅ {["Phase 1"]})
              sample_events untitled_eras (era_of "2026" "2026" None)
              H1 sample_events_nonnull H2 untitled_era_listed H3
              phase_1_selected) as (Hrun & _ & Hd).
  split; [|exact Hd]. unfold outcome. by rewrite Hrun.
Defined.

Lemma operations_total_witness :
  dataset_wf sample_timeline ∧ eras_have_text sample_timeline
  ∧ ∃ t d, constructor sample_timeline blank_page = (Normal t, d)
           ∧ outcome (perform (ToggleEra "Phase 1" 1))
               (session [ToggleGroup "Planning" 2]
                  {| this := t; document := d |})
             = Normal tt.
Proof.
  split; [exact sample_timeline_wf|].
  split; [exact sample_timeline_eras_have_text|].
  destruct (operations_total sample_timeline blank_page sample_timeline_wf
              sample_timeline_eras_have_text) as (t & d & Hnew & Hall).
  exists t, d. split; [exact Hnew|]. apply Hall.
Defined.

Lemma eras_filtered_by_headline_witness :
  events_in (originalData (this (sample_selected ∅ {["Phase 1"]})))
    sample_events
  ∧ eras_in (originalData (this (sample_selected ∅ {["Phase 1"]}))) sample_eras
  ∧ ∃ kept,
      eras_in
        (currentData (this (exec applyFilters
                              (sample_selected ∅ {["Phase 1"]}))))
        kept
      ∧ kept = List.filter (headline_in {["Phase 1"]}) sample_eras.
Proof.
  assert (events_in (originalData (this (sample_selected ∅ {["Phase 1"]})))
            sample_events) as H1 by reflexivity.
  assert (eras_in (originalData (this (sample_selected ∅ {["Phase 1"]})))
            sample_eras) as H2 by reflexivity.
  split; [exact H1|]. split; [exact H2|].
  destruct (eras_filtered_by_headline (sample_selected ∅ {["Phase 1"]})
              sample_events sample_eras H1 sample_events_nonnull H2
              sample_eras_have_text) as (kept & Hk & _ & Hsome).
  exists kept. split; [exact Hk|]. exact (proj1 (Hsome phase_1_selected)).
Defined.

Lemma clearGroupFilters_shows_all_events_witness :
  events_in (originalData (this planning_world)) sample_events
  ∧ events_in (currentData (this (exec clearGroupFilters planning_world)))
      sample_events.
Proof.
  assert (events_in (originalData (this planning_world)) sample_events)
    as H by reflexivity.
  split; [exact H|].
  destruct (clearGroupFilters_shows_all_events planning_world)
    as (_ & _ & Hall).
  exact (Hall sample_events H).
Defined.

Lemma clearEraFilters_shows_all_eras_witness :
  eras_in (originalData (this (untitled_selected ∅ {["Phase 1"]})))
    untitled_eras
  ∧ eras_in
      (currentData (this (exec clearEraFilters
                            (untitled_selected ∅ {["Phase 1"]}))))
      untitled_eras.
Proof.
  assert (eras_in (originalData (this (untitled_selected ∅ {["Phase 1"]})))
            untitled_eras) as H by reflexivity.
  split; [exact H|].
  destruct (clearEraFilters_shows_all_eras (untitled_selected ∅ {["Phase 1"]}))
    as (_ & _ & Hall).
  exact (Hall untitled_eras H).
Defined.

Lemma completed_applyFilters_renders_view_witness :
  outcome applyFilters (sample_selected {["Planning"]} ∅) = Normal tt
  ∧ timeline (this (exec applyFilters (sample_selected {["Planning"]} ∅)))
    = Some (currentData
              (this (exec applyFilters (sample_selected {["Planning"]} ∅)))).
Proof.
  assert (outcome applyFilters (sample_selected {["Planning"]} ∅) = Normal tt)
    as H by (vm_compute; reflexivity).
  split; [exact H|].
  exact (proj1 (completed_applyFilters_renders_view _ H)).
Defined.

Lemma planning_in_planning_review :
  ({["Planning"]} : gset string) ⊆ {["Planning"; "Review"]}.
Proof. intros x Hx. apply elem_of_union. by left. Defined.

Lemma planning_selected : ({["Planning"]} : gset string) ≠ ∅.
Proof. apply non_empty_singleton_L. Defined.

Lemma more_labels_more_events_witness :
  events_in (originalData (this (sample_selected {["Planning"]} ∅)))
    sample_events
  ∧ ∃ shown1 shown2,
      events_in
        (currentData (this (exec applyFilters
                              (sample_selected {["Planning"]} ∅)))) shown1
      ∧ events_in
          (currentData (this (exec applyFilters
                                (sample_selected {["Planning"; "Review"]} ∅))))
          shown2
      ∧ sublist shown1 shown2.
Proof.
  assert (events_in (originalData (this (sample_selected {["Planning"]} ∅)))
            sample_events) as H by reflexivity.
  split; [exact H|].
  apply (more_labels_more_events (sample_selected {["Planning"]} ∅)
           (sample_selected {["Planning"; "Review"]} ∅) sample_events).
  - reflexivity.
  - exact H.
  - exact sample_events_nonnull.
  - exact planning_selected.
  - exact planning_in_planning_review.
Defined.

Lemma planning_event_listed :
  ∃ event, event ∈ sample_events ∧ has_group event "Planning".
Proof.
  exists (event_of "2025" "Kickoff" (Some "Planning")).
  split; [unfold sample_events; constructor|reflexivity].
Defined.

Lemma group_label_shows_its_events_witness :
  events_in (originalData (this sample_world)) sample_events
  ∧ activeGroupFilters (this sample_world) = ∅
  ∧ ∃ shown,
      events_in
        (currentData (this (exec (toggleGroupFilter "Planning" 2)
                              sample_world))) shown
      ∧ shown ≠ [].
Proof.
  assert (events_in (originalData (this sample_world)) sample_events)
    as H by reflexivity.
  split; [exact H|]. split; [reflexivity|].
  destruct (group_label_shows_its_events sample_world sample_events
              "Planning" 2 H sample_events_nonnull eq_refl
              planning_event_listed) as (shown & Hs & Hne & _).
  exists shown. split; [exact Hs|exact Hne].
Defined.

Lemma dimensions_independent_witness :
  events_in (originalData (this (sample_selected {["Planning"]} ∅)))
    sample_events
  ∧ events_of
      (currentData
         (this (exec applyFilters
                  (sample_selected {["Planning"]} {["Phase 1"]}))))
    = events_of
        (currentData
           (this (exec applyFilters (sample_selected {["Planning"]} ∅)))).
Proof.
  assert (events_in (originalData (this (sample_selected {["Planning"]} ∅)))
            sample_events) as H by reflexivity.
  split; [exact H|].
  assert (originalData (this (sample_selected {["Planning"]} {["Phase 1"]}))
          = originalData (this (sample_selected {["Planning"]} ∅)))
    as Ho by reflexivity.
  destruct (dimensions_independent (sample_selected {["Planning"]} ∅)
              (sample_selected {["Planning"]} {["Phase 1"]})
              sample_events Ho H sample_events_nonnull) as [Hevents _].
  apply Hevents. reflexivity.
Defined.

Lemma page_shows_recomputed_view_witness :
  dataset_wf sample_timeline ∧ eras_have_text sample_timeline
  ∧ constructor sample_timeline blank_page = (Normal sample_instance, sample_page)
  ∧ timeline_embed
      (document (session [ToggleGroup "Planning" 2; ToggleEra "Phase 1" 1]
                   sample_world))
    = Some (recompute sample_timeline
              (activeGroupFilters
                 (this (session [ToggleGroup "Planning" 2;
                                 ToggleEra "Phase 1" 1] sample_world)))
              (activeEraFilters
                 (this (session [ToggleGroup "Planning" 2;
                                 ToggleEra "Phase 1" 1] sample_world)))).
Proof.
  assert (constructor sample_timeline blank_page
          = (Normal sample_instance, sample_page)) as H
    by (vm_compute; reflexivity).
  split; [exact sample_timeline_wf|].
  split; [exact sample_timeline_eras_have_text|]. split; [exact H|].
  destruct (page_shows_recomputed_view sample_timeline blank_page
              sample_instance sample_page
              [ToggleGroup "Planning" 2; ToggleEra "Phase 1" 1]
              sample_timeline_wf sample_timeline_eras_have_text H)
    as (_ & _ & He & _).
  exact He.
Defined.

